(** * Playlist transfer: a shallow embedding of [main.py]

    The script copies the videos of one playlist into another one and keeps
    the identifier of the last video it inserted in a progress file, so that
    a later run resumes after it.  The embedding follows the four functions
    of the script ([get_all_videos_from_playlist], [add_video_to_playlist],
    [get_last_video_id], [save_last_video_id]) and [main].

    Conventions.
    - A Python [str] is a list of Unicode code points.
    - A decoded JSON document is a value of [json]; the operations of Python
      on such values ([.get], [in], subscripts, iteration, truth value) are
      modelled with the exceptions they raise on values of the wrong shape.
    - The network is an oracle: the answer to the [n]-th request of a kind,
      as a function of what the request carries.
    - The program is written in a monad that threads the content of the
      progress file, stops at a raised exception and records everything the
      program does (requests, prints, writes, sleeps) in a trace.
    - [while True] is modelled with fuel; a run that is cut off for lack of
      fuel says so and keeps what it had done.
    - The progress file is a text file in the encoding of the platform:
      [f.write] raises on a string that the encoding cannot encode, and
      reading gives back the text that was written (the encoding decodes
      what it has encoded to the same characters, as UTF-8, UTF-16 and the
      single-byte code pages do).  The errors of the operating system, a
      progress file whose bytes cannot be decoded, and a console that
      cannot print a line are not part of the model (with the default
      settings of Python the console prints every string that the
      encoding of the files can encode). *)

From Stdlib Require Import String Ascii NArith ZArith Arith Bool Lia List.
Import ListNotations.

Set Implicit Arguments.
Set Warnings "-register-all,-abstract-large-number".

(* ================================================================== *)
(** * Python strings *)
(* ================================================================== *)

Definition pystr := list N.

(** An ASCII literal as a Python string. *)
Definition py (s : string) : pystr :=
  map N_of_ascii (list_ascii_of_string s).

Fixpoint pystr_eqb (a b : pystr) : bool :=
  match a, b with
  | [], [] => true
  | x :: a', y :: b' => (x =? y)%N && pystr_eqb a' b'
  | _, _ => false
  end.

Definition LF : N := 10%N.
Definition CR : N := 13%N.

(** [str.isspace] on one character: the ASCII table of CPython
    ([\t \n \v \f \r], the separators 0x1C..0x1F and the space) and the
    Unicode characters of bidirectional type WS, B or S or of category Zs. *)
Definition isspace (c : N) : bool :=
  (((9 <=? c) && (c <=? 13)) || ((28 <=? c) && (c <=? 32))
   || (c =? 133) || (c =? 160) || (c =? 5760)
   || ((8192 <=? c) && (c <=? 8202))
   || (c =? 8232) || (c =? 8233) || (c =? 8239) || (c =? 8287)
   || (c =? 12288))%N.

Fixpoint lstrip (s : pystr) : pystr :=
  match s with
  | [] => []
  | c :: rest => if isspace c then lstrip rest else s
  end.

Definition rstrip (s : pystr) : pystr := rev (lstrip (rev s)).

(** [s.strip()] *)
Definition strip (s : pystr) : pystr := rstrip (lstrip s).

(** Reading a file opened with [open(path, "r")]: the default [newline=None]
    turns on universal newlines, so ["\r\n"] and a lone ["\r"] are both
    handed to the caller as ["\n"]. *)
Fixpoint universal_newlines (s : pystr) : pystr :=
  match s with
  | [] => []
  | c :: rest =>
      if (c =? CR)%N then
        LF :: match rest with
              | [] => []
              | d :: rest' =>
                  if (d =? LF)%N then universal_newlines rest'
                  else universal_newlines rest
              end
      else c :: universal_newlines rest
  end.

(** The first and the last character of a string, when it has them. *)
Definition first_char (s : pystr) : option N := hd_error s.
Definition last_char (s : pystr) : option N := hd_error (rev s).

Definition is_space_char (o : option N) : bool :=
  match o with Some c => isspace c | None => false end.

(** The text encoding of a file opened without an [encoding] argument is
    the one of the platform ([locale.getencoding()]): the characters that
    it can encode. *)
Record encoding : Type := mkEncoding {
  encodable : N -> bool
}.

(** [s.encode(enc)] does not raise: every character can be encoded. *)
Definition encodes (enc : encoding) (s : pystr) : bool :=
  forallb (encodable enc) s.

(** UTF-8 encodes every code point but the surrogates, 0xD800 to 0xDFFF. *)
Definition utf8 : encoding :=
  mkEncoding (fun c => (c <? 55296) || (57343 <? c))%N.

(* ================================================================== *)
(** * JSON values and the Python operations the script applies to them *)
(* ================================================================== *)

(** What [response.json()] returns.  A [JObj] is a Python [dict] with
    string keys (each key once).  Of a number the script only ever tests
    the truth value, so that integers are enough. *)
Inductive json : Type :=
| JNull
| JBool (b : bool)
| JNum (n : Z)
| JStr (s : pystr)
| JArr (xs : list json)
| JObj (kvs : list (pystr * json)).

Inductive pyexn : Type :=
| AttributeError
| TypeError
| KeyError
| IndexError
| UnicodeEncodeError.

(** The result of a Python expression: a value or a raised exception. *)
Inductive res (A : Type) : Type :=
| Ret (a : A)
| Exc (e : pyexn).
Arguments Exc {A} e.

Definition rbind {A B} (r : res A) (f : A -> res B) : res B :=
  match r with
  | Ret a => f a
  | Exc e => Exc e
  end.

(** Truth value of an object, as tested by [if x:] and [if not x:]. *)
Definition truthy (v : json) : bool :=
  match v with
  | JNull => false
  | JBool b => b
  | JNum n => negb (n =? 0)%Z
  | JStr s => match s with [] => false | _ => true end
  | JArr xs => match xs with [] => false | _ => true end
  | JObj kvs => match kvs with [] => false | _ => true end
  end.

Fixpoint assoc (k : pystr) (kvs : list (pystr * json)) : option json :=
  match kvs with
  | [] => None
  | (k', v) :: rest => if pystr_eqb k k' then Some v else assoc k rest
  end.

(** [v.get(k, default)]: only a [dict] has the method. *)
Definition py_get (v : json) (k : pystr) (default : json) : res json :=
  match v with
  | JObj kvs =>
      Ret (match assoc k kvs with Some x => x | None => default end)
  | _ => Exc AttributeError
  end.

(** [v == s] for a string [s]: only an equal string is equal to it. *)
Definition eq_str (s : pystr) (v : json) : bool :=
  match v with
  | JStr t => pystr_eqb s t
  | _ => false
  end.

(** [k in s] between strings: [k] occurs in [s] as a substring. *)
Fixpoint is_prefix (k s : pystr) : bool :=
  match k, s with
  | [], _ => true
  | _ :: _, [] => false
  | a :: k', b :: s' => (a =? b)%N && is_prefix k' s'
  end.

Fixpoint is_substring (k s : pystr) : bool :=
  is_prefix k s ||
  match s with
  | [] => false
  | _ :: s' => is_substring k s'
  end.

(** [k in v] for a string [k]: key of a dict, element of a list,
    substring of a string; the other values are not iterable. *)
Definition py_contains (k : pystr) (v : json) : res bool :=
  match v with
  | JObj kvs => Ret (match assoc k kvs with Some _ => true | None => false end)
  | JArr xs => Ret (existsb (eq_str k) xs)
  | JStr s => Ret (is_substring k s)
  | _ => Exc TypeError
  end.

(** [v[k]] for a string [k]: the value of a dict at that key; lists and
    strings want integer indices, the other values have no subscript. *)
Definition py_getitem_key (v : json) (k : pystr) : res json :=
  match v with
  | JObj kvs =>
      match assoc k kvs with
      | Some x => Ret x
      | None => Exc KeyError
      end
  | _ => Exc TypeError
  end.

(** [v[0]]: the first element of a list, the first character of a string;
    a dict decoded from JSON has no key [0]. *)
Definition py_getitem_0 (v : json) : res json :=
  match v with
  | JArr xs =>
      match xs with
      | x :: _ => Ret x
      | [] => Exc IndexError
      end
  | JStr s =>
      match s with
      | c :: _ => Ret (JStr [c])
      | [] => Exc IndexError
      end
  | JObj _ => Exc KeyError
  | _ => Exc TypeError
  end.

(** The values [for item in v] goes through. *)
Definition py_iter (v : json) : res (list json) :=
  match v with
  | JArr xs => Ret xs
  | JObj kvs => Ret (map (fun kv => JStr (fst kv)) kvs)
  | JStr s => Ret (map (fun c => JStr [c]) s)
  | _ => Exc TypeError
  end.

(** [l.index(s)]: the position of the first element equal to [s];
    [None] stands for the [ValueError] of a missing element. *)
Fixpoint py_index (s : pystr) (l : list json) : option nat :=
  match l with
  | [] => None
  | v :: rest =>
      if eq_str s v then Some 0
      else option_map S (py_index s rest)
  end.

(* ================================================================== *)
(** * The network, the progress file and the effects of the program *)
(* ================================================================== *)

(** What comes back from the three lines
    [requests.get(...)], [response.raise_for_status()], [response.json()]
    of the Lister.  The first three are the [RequestException]s of
    [requests]: no response at all, an HTTP error status (4xx or 5xx, for
    which [raise_for_status] raises [HTTPError]), a body that is not JSON
    (the [JSONDecodeError] of [requests], which is both a
    [RequestException] and a [json.JSONDecodeError]). *)
Inductive get_outcome : Type :=
| GetTransportError
| GetHttpError
| GetBadBody
| GetData (data : json).




(** What comes back from [requests.post(...)] and [raise_for_status()] of
    the Inserter.  With an HTTP error status the handler looks at the body:
    [Some error_data] when [response.json()] decodes it, [None] when that
    raises [json.JSONDecodeError]. *)
Inductive post_outcome : Type :=
| PostOk
| PostHttpError (body : option json)
| PostRequestException.

(** The remote service: the answer to the [n]-th listing request and to the
    [n]-th insertion request (counted from 0), given what the request
    carries. *)
Record network : Type := mkNetwork {
  net_get : nat -> pystr -> pystr -> json -> get_outcome;
  net_post : nat -> pystr -> pystr -> json -> post_outcome
}.

(** The lines the script prints, with the values they interpolate. *)
Inductive message : Type :=
| MsgFetching
| MsgErrorFetching
| MsgFound (n : nat)
| MsgFailedToAdd (video_id : json)
| MsgApiErrorMessage (m : json)
| MsgApiErrorReason (r : json)
| MsgCouldNotParse
| MsgUnexpectedError
| MsgFillIn
| MsgNoVideos
| MsgResuming (last_video_id : pystr)
| MsgInvalidProgress
| MsgStarting (n : nat)
| MsgAdding (i n : nat) (video_id : json)
| MsgStopping
| MsgSeparator
| MsgSummary (successful_additions n : nat)
| MsgDeleting.

(** What the program does, in the order it does it. *)
Inductive event : Type :=
| EPrint (m : message)
| EGet (page_token : json) (o : get_outcome)
| EPost (video_id : json) (o : post_outcome)
| ESave (text : pystr)
| ETruncate
| ESleep
| ERemove.

(** A run of a piece of the program: what it returned or raised, the
    content of [progress.txt] when it stopped ([None]: there is no such
    file) and what it did, in order. *)
Record run (A : Type) : Type := mkRun {
  returned : res A;
  progress_file : option pystr;
  trace : list event
}.

(** A computation starts from the content of the progress file. *)
Definition M (A : Type) : Type := option pystr -> run A.

Definition ret {A} (a : A) : M A := fun f => mkRun (Ret a) f [].

Definition after {A} (t : list event) (r : run A) : run A :=
  mkRun (returned r) (progress_file r) (t ++ trace r).

Definition bind {A B} (m : M A) (k : A -> M B) : M B :=
  fun f =>
    let r := m f in
    match returned r with
    | Ret a => after (trace r) (k a (progress_file r))
    | Exc e => mkRun (Exc e) (progress_file r) (trace r)
    end.

Definition lift {A} (r : res A) : M A := fun f => mkRun r f [].

Definition raise {A} (e : pyexn) : M A := fun f => mkRun (Exc e) f [].

Definition emit (e : event) : M unit := fun f => mkRun (Ret tt) f [e].

Definition print (m : message) : M unit := emit (EPrint m).

Definition set_file (g : option pystr) : M unit :=
  fun _ => mkRun (Ret tt) g [].

Definition get_file : M (option pystr) := fun f => mkRun (Ret f) f [].

Notation "x <- m ;; k" := (bind m (fun x => k))
  (at level 61, m at next level, right associativity).
Notation "m ;; k" := (bind m (fun _ => k))
  (at level 61, right associativity).

(* ================================================================== *)
(** * The script *)
(* ================================================================== *)

(** The four values of the USER INPUT block. *)
Record config : Type := mkConfig {
  API_KEY : pystr;
  SOURCE_PLAYLIST_ID : pystr;
  DESTINATION_PLAYLIST_ID : pystr;
  ACCESS_TOKEN : pystr
}.

(** The values the script ships with. *)
Definition script_config : config :=
  mkConfig (py "YOUR_API_KEY") (py "YOUR_SOURCE_PLAYLIST_ID")
           (py "YOUR_DESTINATION_PLAYLIST_ID") (py "YOUR_OAUTH_ACCESS_TOKEN").

(** ** Lister: [get_all_videos_from_playlist] *)

(** [item.get("snippet", {}).get("resourceId", {}).get("videoId")] *)
Definition video_id_of (item : json) : res json :=
  rbind (py_get item (py "snippet") (JObj [])) (fun snippet =>
  rbind (py_get snippet (py "resourceId") (JObj [])) (fun resource_id =>
  py_get resource_id (py "videoId") JNull)).

(** The body of [for item in ...]: a video id that is true is appended. *)
Fixpoint append_videos (items videos : list json) : res (list json) :=
  match items with
  | [] => Ret videos
  | item :: rest =>
      match video_id_of item with
      | Exc e => Exc e
      | Ret video_id =>
          append_videos rest
            (if truthy video_id then videos ++ [video_id] else videos)
      end
  end.

(** [for item in data.get("items", []): ...] *)
Definition page_videos (data : json) (videos : list json) : res (list json) :=
  rbind (py_get data (py "items") (JArr [])) (fun items =>
  rbind (py_iter items) (fun xs => append_videos xs videos)).

(** The [while True] loop is run with fuel, one unit for each turn: a run
    is over ([Done]) or it was cut off before the loop was left
    ([OutOfFuel], with what the program had done until then). *)
Inductive fueled (A : Type) : Type :=
| Done (r : run A)
| OutOfFuel (t : list event).
Arguments OutOfFuel {A} t.

Definition after_fueled {A} (t : list event) (x : fueled A) : fueled A :=
  match x with
  | Done r => Done (after t r)
  | OutOfFuel t' => OutOfFuel (t ++ t')
  end.

(** What a run has done, whether it is over or not. *)
Definition so_far {A} (x : fueled A) : list event :=
  match x with
  | Done r => trace r
  | OutOfFuel t => t
  end.

(** The loop, [n] requests having been made before.  A [RequestException]
    returns [[]] from the function; the [break] goes on to the two lines
    after the loop; any other exception leaves the function. *)
Fixpoint lister_loop (net : network) (playlist_id api_key : pystr)
    (fuel n : nat) (next_page_token : json) (videos : list json)
    (f : option pystr) : fueled (list json) :=
  match fuel with
  | O => OutOfFuel []
  | S fuel' =>
      let o := net_get net n playlist_id api_key next_page_token in
      after_fueled [EGet next_page_token o]
        match o with
        | GetData data =>
            match page_videos data videos with
            | Exc e => Done (raise e f)
            | Ret videos' =>
                match py_get data (py "nextPageToken") JNull with
                | Exc e => Done (raise e f)
                | Ret token =>
                    if truthy token then
                      lister_loop net playlist_id api_key fuel' (S n)
                        token videos' f
                    else
                      Done ((print (MsgFound (length videos')) ;;
                             ret videos') f)
                end
            end
        | _ => Done ((print MsgErrorFetching ;; ret []) f)
        end
  end.

Definition get_all_videos_from_playlist (net : network) (fuel : nat)
    (playlist_id api_key : pystr) (f : option pystr)
    : fueled (list json) :=
  after_fueled [EPrint MsgFetching]
    (lister_loop net playlist_id api_key fuel 0 JNull [] f).

(** ** Inserter: [add_video_to_playlist] *)

(** The two prints under [if "error" in error_data:]. *)
Definition report_api_error (error_data : json) : M unit :=
  has_error <- lift (py_contains (py "error") error_data) ;;
  if has_error then
    message <- lift (rbind (py_getitem_key error_data (py "error"))
                       (fun e => py_get e (py "message") JNull)) ;;
    print (MsgApiErrorMessage message) ;;
    reason <- lift (rbind (py_getitem_key error_data (py "error")) (fun e =>
                    rbind (py_get e (py "errors") JNull) (fun errors =>
                    rbind (py_getitem_0 errors) (fun first =>
                    py_get first (py "reason") JNull)))) ;;
    print (MsgApiErrorReason reason)
  else ret tt.

(** [n] is the number of insertion requests made before this one. *)
Definition add_video_to_playlist (net : network) (n : nat)
    (playlist_id access_token : pystr) (video_id : json) : M bool :=
  let o := net_post net n playlist_id access_token video_id in
  emit (EPost video_id o) ;;
  match o with
  | PostOk => ret true
  | PostHttpError body =>
      print (MsgFailedToAdd video_id) ;;
      match body with
      | Some error_data => report_api_error error_data
      | None => print MsgCouldNotParse
      end ;;
      ret false
  | PostRequestException =>
      print MsgUnexpectedError ;;
      ret false
  end.

(** ** Checkpoint store: [get_last_video_id], [save_last_video_id] *)

(** [None] is Python's [None]. *)
Definition get_last_video_id : M (option pystr) :=
  f <- get_file ;;
  match f with
  | Some content => ret (Some (strip (universal_newlines content)))
  | None => ret None
  end.

(** [f.write(video_id)]: the text that goes to the file, or the exception
    that is raised: [TypeError] for a value that is not a [str],
    [UnicodeEncodeError] for a [str] that the encoding of the file cannot
    encode.  (With the line separator ["\n"] of POSIX nothing is translated
    on writing.) *)
Definition written (enc : encoding) (video_id : json) : res pystr :=
  match video_id with
  | JStr s => if encodes enc s then Ret s else Exc UnicodeEncodeError
  | _ => Exc TypeError
  end.

(** [open(PROGRESS_FILE, "w")] creates or empties the file, and it stays
    empty when [f.write] raises. *)
Definition save_last_video_id (enc : encoding) (video_id : json) : M unit :=
  match written enc video_id with
  | Ret s => set_file (Some s) ;; emit (ESave s)
  | Exc e => set_file (Some []) ;; emit ETruncate ;; raise e
  end.

(** ** Orchestrator: [main] *)

(** Lines 126-136: the work list [videos_to_add].  [if last_video_id:]
    holds for a string that is not empty. *)
Definition resume (video_ids : list json) : M (list json) :=
  last_video_id <- get_last_video_id ;;
  match last_video_id with
  | Some ((_ :: _) as last) =>
      print (MsgResuming last) ;;
      match py_index last video_ids with
      | Some i => ret (skipn (i + 1) video_ids)
      | None => print MsgInvalidProgress ;; ret video_ids
      end
  | _ => ret video_ids
  end.

(** Lines 141-150: the [for] loop over what is left of [videos_to_add],
    [i] being the index that [enumerate] has reached and [total] the length
    of the whole work list.  Returns [successful_additions]. *)
Fixpoint transfer_loop (net : network) (cfg : config) (enc : encoding)
    (total i : nat)
    (videos : list json) (successful_additions : nat) : M nat :=
  match videos with
  | [] => ret successful_additions
  | video_id :: rest =>
      print (MsgAdding (i + 1) total video_id) ;;
      ok <- add_video_to_playlist net i (DESTINATION_PLAYLIST_ID cfg)
              (ACCESS_TOKEN cfg) video_id ;;
      if ok then
        save_last_video_id enc video_id ;;
        emit ESleep ;;
        transfer_loop net cfg enc total (S i) rest (S successful_additions)
      else
        print MsgStopping ;;
        ret successful_additions
  end.

(** Lines 152-157. *)
Definition finish (successful_additions total : nat) : M unit :=
  print MsgSeparator ;;
  print (MsgSummary successful_additions total) ;;
  if successful_additions =? total then
    print MsgDeleting ;;
    f <- get_file ;;
    match f with
    | Some _ => set_file None ;; emit ERemove
    | None => ret tt
    end
  else ret tt.

(** Lines 138-157: the transfer of a work list. *)
Definition transfer (net : network) (cfg : config) (enc : encoding)
    (videos_to_add : list json) : M unit :=
  print (MsgStarting (length videos_to_add)) ;;
  successful_additions <-
    transfer_loop net cfg enc (length videos_to_add) 0 videos_to_add 0 ;;
  finish successful_additions (length videos_to_add).

(** Lines 122-157: [main] once the Lister has returned [video_ids]. *)
Definition main_from (net : network) (cfg : config) (enc : encoding)
    (video_ids : list json) : M unit :=
  match video_ids with
  | [] => print MsgNoVideos
  | _ :: _ =>
      videos_to_add <- resume video_ids ;;
      transfer net cfg enc videos_to_add
  end.

(** [all([API_KEY, SOURCE_PLAYLIST_ID, DESTINATION_PLAYLIST_ID,
    ACCESS_TOKEN])] *)
Definition all_set (cfg : config) : bool :=
  forallb (fun s => truthy (JStr s))
    [API_KEY cfg; SOURCE_PLAYLIST_ID cfg;
     DESTINATION_PLAYLIST_ID cfg; ACCESS_TOKEN cfg].

Definition main (net : network) (cfg : config) (enc : encoding)
    (fuel : nat) (f : option pystr) : fueled unit :=
  if all_set cfg then
    match get_all_videos_from_playlist net fuel
            (SOURCE_PLAYLIST_ID cfg) (API_KEY cfg) f with
    | OutOfFuel t => OutOfFuel t
    | Done r =>
        match returned r with
        | Ret video_ids =>
            Done (after (trace r)
                    (main_from net cfg enc video_ids (progress_file r)))
        | Exc e => Done (mkRun (Exc e) (progress_file r) (trace r))
        end
    end
  else Done (print MsgFillIn f).

(* ================================================================== *)
(** * Vocabulary of the statements *)
(* ================================================================== *)

(** A string has no leading and no trailing whitespace. *)
Definition trimmed (s : pystr) : Prop :=
  is_space_char (first_char s) = false /\
  is_space_char (last_char s) = false.

(** The video ids of the insertion requests of a trace, in order. *)
Fixpoint posts (t : list event) : list json :=
  match t with
  | [] => []
  | EPost video_id _ :: rest => video_id :: posts rest
  | _ :: rest => posts rest
  end.



(** A sequence that the Lister can return to [main]. *)
Definition listed (video_ids : list json) : Prop :=
  exists net fuel playlist_id api_key f r,
    get_all_videos_from_playlist net fuel playlist_id api_key f = Done r /\
    returned r = Ret video_ids.

(** The continuation token of a page: [data.get("nextPageToken")]. *)
Definition next_page_token_of (data : json) : res json :=
  py_get data (py "nextPageToken") JNull.

(** The video ids that the Lister keeps of one page. *)
Definition resolvable (data : json) : res (list json) := page_videos data [].

(** [serves net playlist_id api_key n token pages]: from its [n]-th listing
    request on, made with [token], the endpoint hands out the documents
    [pages] one after the other, each one with a continuation token (a
    true value) that the next request carries, but for the last one,
    which has none (or a false value). *)
Inductive serves (net : network) (playlist_id api_key : pystr)
    : nat -> json -> list json -> Prop :=
| serves_last : forall n token data next,
    net_get net n playlist_id api_key token = GetData data ->
    next_page_token_of data = Ret next ->
    truthy next = false ->
    serves net playlist_id api_key n token [data]
| serves_more : forall n token data next pages,
    net_get net n playlist_id api_key token = GetData data ->
    next_page_token_of data = Ret next ->
    truthy next = true ->
    serves net playlist_id api_key (S n) next pages ->
    serves net playlist_id api_key n token (data :: pages).

(** An entry of a listing page with the given [videoId], and a page of such
    entries with the given [nextPageToken]. *)
Definition item_of (video_id : json) : json :=
  JObj [(py "snippet",
         JObj [(py "resourceId",
                JObj [(py "kind", JStr (py "youtube#video"));
                      (py "videoId", video_id)])])].

Definition page_of (video_ids : list json) (next_page_token : json) : json :=
  JObj [(py "items", JArr (map item_of video_ids));
        (py "nextPageToken", next_page_token)].

(** An insertion endpoint that accepts everything. *)
Definition post_ok : nat -> pystr -> pystr -> json -> post_outcome :=
  fun _ _ _ _ => PostOk.


(** A listing endpoint with two pages, [A; B] and an entry without video id
    under the token ["T"], then [C; D]; the third request fails. *)
Definition net_two_pages : network :=
  mkNetwork
    (fun n _ _ _ =>
       match n with
       | 0 => GetData (page_of [JStr (py "A"); JStr (py "B"); JNull]
                         (JStr (py "T")))
       | 1 => GetData (page_of [JStr (py "C"); JStr (py "D")] JNull)
       | _ => GetTransportError
       end)
    post_ok.

(** A listing endpoint whose first page comes and whose second request
    is answered with an HTTP error. *)
Definition net_second_fails : network :=
  mkNetwork
    (fun n _ _ _ =>
       match n with
       | 0 => GetData (page_of [JStr (py "A"); JStr (py "B")]
                         (JStr (py "T")))
       | _ => GetHttpError
       end)
    post_ok.

(** The pages of [net_two_pages]. *)
Definition two_pages : list json :=
  [page_of [JStr (py "A"); JStr (py "B"); JNull] (JStr (py "T"));
   page_of [JStr (py "C"); JStr (py "D")] JNull].

(** A computation that prints and does nothing else: its result does not
    depend on the progress file, which it leaves as it is. *)
Definition prints_only {A} (m : M A) : Prop :=
  exists r msgs, forall f, m f = mkRun r f (map EPrint msgs).

(** What the [n]-th insertion request of a run returns or raises, for the
    video [video_id]. *)
Definition inserted (net : network) (cfg : config) (n : nat)
    (video_id : json) : res bool :=
  returned (add_video_to_playlist net n (DESTINATION_PLAYLIST_ID cfg)
              (ACCESS_TOKEN cfg) video_id None).

(** The body of a 403 answer that has an ["error"] object with a code and
    a message and no ["errors"] list. *)
Definition error_without_errors : json :=
  JObj [(py "error",
         JObj [(py "code", JNum 403);
               (py "message", JStr (py "Forbidden"));
               (py "status", JStr (py "PERMISSION_DENIED"))])].

(** An insertion endpoint that answers every request with that error. *)
Definition net_forbidden : network :=
  mkNetwork (net_get net_two_pages)
    (fun _ _ _ _ => PostHttpError (Some error_without_errors)).

(** The error body that the YouTube API documents: a message and a list of
    errors with a reason each. *)
Definition error_with_reason : json :=
  JObj [(py "error",
         JObj [(py "code", JNum 403);
               (py "message", JStr (py "Quota exceeded"));
               (py "errors",
                JArr [JObj [(py "reason", JStr (py "quotaExceeded"))]])])].

(** The answers [PostOk] among the insertion requests of a trace. *)
Definition is_ok_post (e : event) : bool :=
  match e with
  | EPost _ PostOk => true
  | _ => false
  end.

Definition successes (t : list event) : nat :=
  length (filter is_ok_post t).

(** An event that neither writes the progress file nor reports an
    insertion that succeeded. *)
Definition neutral (e : event) : Prop :=
  match e with
  | ESave _ | ETruncate | ERemove | EPost _ PostOk => False
  | _ => True
  end.

(** Traces in which the progress file is written with the video of an
    insertion right after that insertion succeeded, and at no other
    moment, and is removed as the last thing if at all. *)
Inductive checkpointed : list event -> Prop :=
| checkpointed_nil : checkpointed []
| checkpointed_removed : checkpointed [ERemove]
| checkpointed_saved : forall s t,
    checkpointed t ->
    checkpointed (EPost (JStr s) PostOk :: ESave s :: t)
| checkpointed_neutral : forall e t,
    neutral e -> checkpointed t -> checkpointed (e :: t).

(** The identifiers [A; B; C; D]. *)
Definition abcd : list pystr := [py "A"; py "B"; py "C"; py "D"].

(** An insertion endpoint that accepts two videos and answers the third
    request, and the ones after it, with the documented quota error. *)
Definition net_third_fails : network :=
  mkNetwork (net_get net_two_pages)
    (fun n _ _ _ =>
       match n with
       | 0 | 1 => PostOk
       | _ => PostHttpError (Some error_with_reason)
       end).

(** A listing endpoint for an empty playlist. *)
Definition net_empty : network :=
  mkNetwork (fun _ _ _ _ => GetData (page_of [] JNull)) post_ok.

(** A listing endpoint that serves the given video ids on one page. *)
Definition net_one_page (video_ids : list json) : network :=
  mkNetwork (fun _ _ _ _ => GetData (page_of video_ids JNull)) post_ok.


(** A playlist whose first identifier begins with a space. *)
Definition padded : list json :=
  [JStr (py " B"); JStr (py "C"); JStr (py "D")].

(** The text ["B\n"]: the identifier [B] and a line end. *)
Definition b_newline : pystr := [66; 10]%N.


(* ================================================================== *)
(** * Vocabulary of the further properties *)
(* ================================================================== *)

(** The listing requests of a trace: the token sent and the answer. *)
Fixpoint gets (t : list event) : list (json * get_outcome) :=
  match t with
  | [] => []
  | EGet page_token o :: rest => (page_token, o) :: gets rest
  | _ :: rest => gets rest
  end.

(** [follows net playlist_id api_key n token gs]: the requests [gs] are
    the [n]-th and the following ones; the first carries [token], each is
    answered by the endpoint, and each further one carries the true
    continuation token of the page before it. *)
Fixpoint follows (net : network) (playlist_id api_key : pystr) (n : nat)
    (token : json) (gs : list (json * get_outcome)) : Prop :=
  match gs with
  | [] => True
  | (page_token, o) :: rest =>
      page_token = token /\
      o = net_get net n playlist_id api_key token /\
      (rest = [] \/
       exists data next,
         o = GetData data /\
         next_page_token_of data = Ret next /\
         truthy next = true /\
         follows net playlist_id api_key (S n) next rest)
  end.

(** An event of the Lister: a print or a listing request. *)
Definition is_listing_event (e : event) : Prop :=
  match e with
  | EPrint _ | EGet _ _ => True
  | _ => False
  end.

(** The videos whose insertion request was answered with [PostOk]. *)
Fixpoint inserted_videos (t : list event) : list json :=
  match t with
  | [] => []
  | EPost video_id PostOk :: rest => video_id :: inserted_videos rest
  | _ :: rest => inserted_videos rest
  end.

(** The pauses and the writes of the progress file in a trace. *)
Definition sleeps (t : list event) : nat :=
  length (filter (fun e => match e with ESleep => true | _ => false end) t).

Definition saves (t : list event) : nat :=
  length (filter (fun e => match e with ESave _ => true | _ => false end) t).

(** A string of whitespace only (the empty string is one). *)
Definition blank (s : pystr) : Prop := forallb isspace s = true.

(** An identifier that the progress file gives back as it was written:
    not empty, no whitespace at its ends, no carriage return. *)
Definition clean (id : pystr) : Prop :=
  id <> [] /\ trimmed id /\ ~ In CR id.

(** A listing endpoint whose only page holds, between two well-formed
    entries, an entry with ["snippet": null]. *)
Definition net_null_snippet : network :=
  mkNetwork
    (fun _ _ _ _ =>
       GetData (JObj [(py "items",
                       JArr [item_of (JStr (py "A"));
                             JObj [(py "snippet", JNull)];
                             item_of (JStr (py "B"))])]))
    post_ok.

(** The page of [net_null_snippet]. *)
Definition page_null_snippet : list (pystr * json) :=
  [(py "items",
    JArr [item_of (JStr (py "A"));
          JObj [(py "snippet", JNull)];
          item_of (JStr (py "B"))])].

(** Entries that lack the video id at one level or another. *)
Definition entry_without_snippet : json :=
  JObj [(py "kind", JStr (py "youtube#playlistItem"))].

Definition entry_without_resource : json :=
  JObj [(py "snippet", JObj [(py "title", JStr (py "Deleted video"))])].

Definition entry_without_video_id : json :=
  JObj [(py "snippet",
         JObj [(py "resourceId",
                JObj [(py "kind", JStr (py "youtube#channel"))])])].

(** The value of a key of an object, [None] when the key is missing:
    [d.get(k)]. *)
Definition get_or_null (k : pystr) (kvs : list (pystr * json)) : json :=
  match assoc k kvs with
  | Some x => x
  | None => JNull
  end.

(** An insertion endpoint that answers with a given outcome. *)
Definition net_answering (o : post_outcome) : network :=
  mkNetwork (net_get net_two_pages) (fun _ _ _ _ => o).

(** A playlist in which [A] and [B] occur twice. *)
Definition abab : list json :=
  [JStr (py "A"); JStr (py "B"); JStr (py "A"); JStr (py "B")].

(** A configuration whose access token has been left empty. *)
Definition config_without_token : config :=
  mkConfig (py "KEY") (py "PL_SOURCE") (py "PL_DEST") [].

(* ================================================================== *)
(** * Strings *)
(* ================================================================== *)

Lemma pystr_eqb_eq (a b : pystr) : pystr_eqb a b = true <-> a = b.
Proof.
  revert b; induction a as [|x a IH]; intros [|y b]; simpl;
    try (split; [discriminate | congruence]); try tauto.
  rewrite andb_true_iff, N.eqb_eq, IH.
  split; [intros [-> ->]; reflexivity | intros E; inversion E; auto].
Qed.

Lemma pystr_eqb_refl (a : pystr) : pystr_eqb a a = true.
Proof. apply pystr_eqb_eq; reflexivity. Qed.


(** [lstrip] takes a run of whitespace off the front. *)
Lemma lstrip_split (s : pystr) :
  exists p, s = p ++ lstrip s /\ forallb isspace p = true.
Proof.
  induction s as [|c s [p [E F]]]; simpl.
  - exists []; auto.
  - destruct (isspace c) eqn:C.
    + exists (c :: p); simpl; rewrite C, F; split; [congruence | reflexivity].
    + exists []; auto.
Qed.

Lemma lstrip_first (s : pystr) :
  is_space_char (first_char (lstrip s)) = false.
Proof.
  induction s as [|c s IH]; simpl; [reflexivity|].
  destruct (isspace c) eqn:C; [exact IH | simpl; exact C].
Qed.

Lemma lstrip_id (s : pystr) :
  is_space_char (first_char s) = false -> lstrip s = s.
Proof.
  destruct s as [|c s]; simpl; [reflexivity|].
  intros ->; reflexivity.
Qed.

Lemma rstrip_id (s : pystr) :
  is_space_char (last_char s) = false -> rstrip s = s.
Proof.
  unfold rstrip, last_char; intros H.
  rewrite (lstrip_id _ H); apply rev_involutive.
Qed.

Lemma rstrip_last (s : pystr) :
  is_space_char (last_char (rstrip s)) = false.
Proof.
  unfold rstrip, last_char; rewrite rev_involutive; apply lstrip_first.
Qed.

(** [rstrip] takes a run of whitespace off the end. *)
Lemma rstrip_split (s : pystr) :
  exists p, s = rstrip s ++ p /\ forallb isspace p = true.
Proof.
  unfold rstrip; destruct (lstrip_split (rev s)) as [p [E F]].
  exists (rev p); split.
  - rewrite <- rev_app_distr, <- E, rev_involutive; reflexivity.
  - rewrite forallb_forall in *; intros x Hx; apply F, in_rev, Hx.
Qed.

Lemma rstrip_first (s : pystr) :
  is_space_char (first_char s) = false ->
  is_space_char (first_char (rstrip s)) = false.
Proof.
  destruct (rstrip_split s) as [p [E _]]; revert E.
  destruct (rstrip s) as [|c r]; simpl; [reflexivity|].
  intros -> H; exact H.
Qed.

(** What [strip] returns has whitespace at neither end. *)
Lemma strip_trimmed (s : pystr) : trimmed (strip s).
Proof.
  split; unfold strip.
  - apply rstrip_first, lstrip_first.
  - apply rstrip_last.
Qed.

(** [strip] leaves a string alone that has whitespace at neither end. *)
Lemma strip_id (s : pystr) : trimmed s -> strip s = s.
Proof.
  intros [H1 H2]; unfold strip.
  rewrite (lstrip_id _ H1); apply rstrip_id, H2.
Qed.

(** Universal newlines leave a string alone that has no carriage return. *)
Lemma universal_newlines_id (s : pystr) :
  ~ In CR s -> universal_newlines s = s.
Proof.
  induction s as [|c s IH]; simpl; [reflexivity|]; intros H.
  destruct (c =? CR)%N eqn:E.
  - apply N.eqb_eq in E; exfalso; apply H; left; exact E.
  - f_equal; apply IH; intros Hin; apply H; right; exact Hin.
Qed.

(** ** Whitespace only *)

(** Induction on a list, one or two elements at a time. *)
Lemma list_pair_ind {A} (P : list A -> Prop) :
  P [] -> (forall a, P [a]) ->
  (forall a b l, P l -> P (b :: l) -> P (a :: b :: l)) ->
  forall l, P l.
Proof.
  intros H0 H1 H2 l.
  assert (H : P l /\ forall a, P (a :: l)); [|apply H].
  induction l as [|b l [IH1 IH2]]; [split; [exact H0 | exact H1]|].
  split; [apply IH2|]; intros a; apply H2; [exact IH1 | apply IH2].
Qed.

(** What universal newlines hand over is a line feed or a character of the
    text that is no carriage return. *)
Lemma universal_newlines_in (s : pystr) :
  forall x, In x (universal_newlines s) -> x = LF \/ (In x s /\ x <> CR).
Proof.
  induction s as [| a | a b l IH1 IH2] using list_pair_ind; intros x.
  - intros [].
  - simpl; destruct (a =? CR)%N eqn:E.
    + intros [<- | []]; left; reflexivity.
    + apply N.eqb_neq in E; intros [<- | []]; right; split; [left|]; auto.
  - change (universal_newlines (a :: b :: l)) with
      (if (a =? CR)%N
       then LF :: (if (b =? LF)%N then universal_newlines l
                   else universal_newlines (b :: l))
       else a :: universal_newlines (b :: l)).
    destruct (a =? CR)%N eqn:E.
    + intros [<- | Hin]; [left; reflexivity|].
      destruct (b =? LF)%N.
      * destruct (IH1 x Hin) as [-> | [H1 H2]]; [left; reflexivity|].
        right; split; [right; right; exact H1 | exact H2].
      * destruct (IH2 x Hin) as [-> | [H1 H2]]; [left; reflexivity|].
        right; split; [right; exact H1 | exact H2].
    + apply N.eqb_neq in E; intros [<- | Hin].
      * right; split; [left; reflexivity | exact E].
      * destruct (IH2 x Hin) as [-> | [H1 H2]]; [left; reflexivity|].
        right; split; [right; exact H1 | exact H2].
Qed.

Lemma universal_newlines_blank (ws : pystr) :
  blank ws -> blank (universal_newlines ws).
Proof.
  unfold blank; rewrite !forallb_forall; intros B x Hin.
  destruct (universal_newlines_in ws x Hin) as [-> | [H _]];
    [reflexivity | apply B, H].
Qed.

Lemma lstrip_blank (ws s : pystr) : blank ws -> lstrip (ws ++ s) = lstrip s.
Proof.
  unfold blank; induction ws as [|c ws IH]; simpl; [reflexivity|].
  rewrite andb_true_iff; intros [-> B]; apply IH, B.
Qed.

Lemma strip_blank (ws : pystr) : blank ws -> strip ws = [].
Proof.
  intros B; unfold strip.
  rewrite <- (app_nil_r ws), (@lstrip_blank ws [] B); reflexivity.
Qed.


(* ================================================================== *)
(** * The checkpoint store *)
(* ================================================================== *)

Ltac run_monad :=
  unfold bind, ret, lift, raise, print, emit, set_file, get_file, after;
  simpl.

Lemma written_ret (enc : encoding) (video_id : json) (s : pystr) :
  written enc video_id = Ret s -> video_id = JStr s /\ encodes enc s = true.
Proof.
  destruct video_id as [| | |t| |]; simpl; try discriminate.
  destruct (encodes enc t) eqn:E; [|discriminate].
  intros [= <-]; split; [reflexivity | exact E].
Qed.

Lemma written_encodable (enc : encoding) (s : pystr) :
  encodes enc s = true -> written enc (JStr s) = Ret s.
Proof. intros E; simpl; rewrite E; reflexivity. Qed.

Lemma save_written_run (enc : encoding) (video_id : json) (s : pystr)
    (W : written enc video_id = Ret s) (f : option pystr) :
  save_last_video_id enc video_id f = mkRun (Ret tt) (Some s) [ESave s].
Proof. unfold save_last_video_id; rewrite W; reflexivity. Qed.

Lemma save_raises_run (enc : encoding) (video_id : json) (e : pyexn)
    (W : written enc video_id = Exc e) (f : option pystr) :
  save_last_video_id enc video_id f = mkRun (Exc e) (Some []) [ETruncate].
Proof. unfold save_last_video_id; rewrite W; reflexivity. Qed.







(* ================================================================== *)
(** * The resume point *)
(* ================================================================== *)

Lemma eq_str_true (s : pystr) (v : json) :
  eq_str s v = true <-> v = JStr s.
Proof.
  destruct v; simpl; try (split; [discriminate | congruence]).
  rewrite pystr_eqb_eq; split; congruence.
Qed.

Lemma py_index_missing (s : pystr) (l : list json) :
  ~ In (JStr s) l -> py_index s l = None.
Proof.
  induction l as [|v l IH]; simpl; [reflexivity|]; intros H.
  destruct (eq_str s v) eqn:E.
  - apply eq_str_true in E; exfalso; apply H; left; exact E.
  - rewrite IH; [reflexivity | intros Hin; apply H; right; exact Hin].
Qed.

Lemma py_index_found (s : pystr) (l : list json) (i : nat) :
  py_index s l = Some i -> nth_error l i = Some (JStr s).
Proof.
  revert i; induction l as [|v l IH]; simpl; [discriminate|]; intros i.
  destruct (eq_str s v) eqn:E.
  - intros [= <-]; apply eq_str_true in E; simpl; congruence.
  - destruct (py_index s l) as [j|]; simpl; [|discriminate].
    intros [= <-]; simpl; apply IH; reflexivity.
Qed.

(** In a list without repetition [index] finds the position of an
    element. *)
Lemma py_index_nodup (s : pystr) (l : list json) (i : nat) :
  NoDup l -> nth_error l i = Some (JStr s) -> py_index s l = Some i.
Proof.
  revert i; induction l as [|v l IH]; intros [|i] ND H; simpl in *;
    try discriminate.
  - injection H as ->; simpl; rewrite pystr_eqb_refl; reflexivity.
  - inversion ND as [|? ? Hnotin ND']; subst.
    destruct (eq_str s v) eqn:E.
    + apply eq_str_true in E; subst v.
      exfalso; apply Hnotin; eapply nth_error_In; exact H.
    + rewrite (IH i ND' H); reflexivity.
Qed.

Lemma get_last_video_id_run (f : option pystr) :
  get_last_video_id f =
  mkRun (Ret (option_map (fun c => strip (universal_newlines c)) f)) f [].
Proof. destruct f; reflexivity. Qed.

(** An identifier without whitespace at its ends and without carriage
    return is read from the progress file as it is stored there. *)
Lemma stored_identifier_is_read (id : pystr) :
  trimmed id -> ~ In CR id ->
  returned (get_last_video_id (Some id)) = Ret (Some id).
Proof.
  intros T C; rewrite get_last_video_id_run; simpl.
  rewrite (universal_newlines_id _ C), (strip_id T); reflexivity.
Qed.

(** [resume], by what [get_last_video_id] hands it. *)
Lemma resume_absent (video_ids : list json) (f : option pystr) :
  returned (get_last_video_id f) = Ret None \/
  returned (get_last_video_id f) = Ret (Some []) ->
  resume video_ids f = mkRun (Ret video_ids) f [].
Proof.
  rewrite get_last_video_id_run; simpl; unfold resume, bind.
  rewrite get_last_video_id_run; simpl.
  intros [[= ->] | [= ->]]; reflexivity.
Qed.

Lemma resume_present (video_ids : list json) (f : option pystr)
    (last : pystr) :
  returned (get_last_video_id f) = Ret (Some last) -> last <> [] ->
  resume video_ids f =
  match py_index last video_ids with
  | Some i =>
      mkRun (Ret (skipn (i + 1) video_ids)) f [EPrint (MsgResuming last)]
  | None =>
      mkRun (Ret video_ids) f
        [EPrint (MsgResuming last); EPrint MsgInvalidProgress]
  end.
Proof.
  rewrite get_last_video_id_run; simpl; unfold resume, bind.
  rewrite get_last_video_id_run; simpl.
  intros [= ->] NE; destruct last as [|c last]; [congruence|].
  run_monad; destruct (py_index (c :: last) video_ids); reflexivity.
Qed.

(* ================================================================== *)
(** * The Lister *)
(* ================================================================== *)

Lemma so_far_after {A} (t : list event) (x : fueled A) :
  so_far (after_fueled t x) = t ++ so_far x.
Proof. destruct x; reflexivity. Qed.

(** The videos of a page are appended to the ones collected before. *)
Lemma append_videos_acc (items videos : list json) :
  append_videos items videos =
  rbind (append_videos items []) (fun vs => Ret (videos ++ vs)).
Proof.
  revert videos; induction items as [|item items IH]; intros videos; simpl.
  - rewrite app_nil_r; reflexivity.
  - destruct (video_id_of item) as [v|e]; [|reflexivity].
    rewrite IH, (IH (if truthy v then [v] else [])).
    destruct (append_videos items []) as [vs|e]; simpl; [|reflexivity].
    destruct (truthy v); simpl; [rewrite <- app_assoc|]; reflexivity.
Qed.

Lemma page_videos_acc (data : json) (videos : list json) :
  page_videos data videos =
  rbind (resolvable data) (fun vs => Ret (videos ++ vs)).
Proof.
  unfold resolvable, page_videos.
  destruct (py_get data (py "items") (JArr [])) as [items|e]; simpl;
    [|reflexivity].
  destruct (py_iter items) as [xs|e]; simpl; [|reflexivity].
  apply append_videos_acc.
Qed.

(** Every video id that is kept is a true value (line 52). *)
Lemma append_videos_truthy (items videos vs : list json) :
  Forall (fun v => truthy v = true) videos ->
  append_videos items videos = Ret vs ->
  Forall (fun v => truthy v = true) vs.
Proof.
  revert videos; induction items as [|item items IH]; intros videos F;
    simpl.
  - intros [= <-]; exact F.
  - destruct (video_id_of item) as [v|e]; [|discriminate].
    apply IH; destruct (truthy v) eqn:T; [|exact F].
    apply Forall_app; split; [exact F | constructor; [exact T | constructor]].
Qed.

Lemma page_videos_truthy (data : json) (videos vs : list json) :
  Forall (fun v => truthy v = true) videos ->
  page_videos data videos = Ret vs ->
  Forall (fun v => truthy v = true) vs.
Proof.
  unfold page_videos; intros F.
  destruct (py_get data (py "items") (JArr [])) as [items|e]; simpl;
    [|discriminate].
  destruct (py_iter items) as [xs|e]; simpl; [|discriminate].
  apply append_videos_truthy, F.
Qed.

Lemma lister_loop_truthy net playlist_id api_key fuel :
  forall n token videos f r vs,
    Forall (fun v => truthy v = true) videos ->
    lister_loop net playlist_id api_key fuel n token videos f = Done r ->
    returned r = Ret vs ->
    Forall (fun v => truthy v = true) vs.
Proof.
  induction fuel as [|fuel IH]; intros n token videos f r vs F; simpl;
    [discriminate|].
  destruct (net_get net n playlist_id api_key token) as [| | |data];
    simpl; try (intros [= <-]; simpl; intros [= <-]; constructor).
  destruct (page_videos data videos) as [videos'|e] eqn:P; simpl;
    [|intros [= <-]; discriminate].
  destruct (py_get data (py "nextPageToken") JNull) as [next|e]; simpl;
    [|intros [= <-]; discriminate].
  destruct (truthy next).
  - destruct (lister_loop net playlist_id api_key fuel (S n) next videos' f)
      as [r'|t] eqn:L; simpl; [|discriminate].
    intros [= <-]; simpl; intros R.
    eapply IH; [|exact L|exact R].
    eapply page_videos_truthy; eassumption.
  - intros [= <-]; simpl; intros [= <-].
    eapply page_videos_truthy; eassumption.
Qed.

(** What the Lister hands to [main] holds true values only: no empty
    string, in particular. *)
Lemma listed_truthy (video_ids : list json) :
  listed video_ids -> Forall (fun v => truthy v = true) video_ids.
Proof.
  intros (net & fuel & playlist_id & api_key & f & r & L & R).
  unfold get_all_videos_from_playlist in L.
  destruct (lister_loop net playlist_id api_key fuel 0 JNull [] f)
    as [r'|t] eqn:E; simpl in L; [|discriminate].
  injection L as <-; simpl in R.
  eapply lister_loop_truthy; [constructor | exact E | exact R].
Qed.

(** The Lister leaves the progress file alone. *)
Lemma lister_loop_file net playlist_id api_key fuel :
  forall n token videos f r,
    lister_loop net playlist_id api_key fuel n token videos f = Done r ->
    progress_file r = f.
Proof.
  induction fuel as [|fuel IH]; intros n token videos f r; simpl;
    [discriminate|].
  destruct (net_get net n playlist_id api_key token) as [| | |data];
    simpl; try (intros [= <-]; reflexivity).
  destruct (page_videos data videos) as [videos'|e]; simpl;
    [|intros [= <-]; reflexivity].
  destruct (py_get data (py "nextPageToken") JNull) as [next|e]; simpl;
    [|intros [= <-]; reflexivity].
  destruct (truthy next).
  - destruct (lister_loop net playlist_id api_key fuel (S n) next videos' f)
      as [r'|t] eqn:L; simpl; [|discriminate].
    intros [= <-]; simpl; eapply IH; exact L.
  - intros [= <-]; reflexivity.
Qed.

Lemma lister_file net fuel playlist_id api_key f r :
  get_all_videos_from_playlist net fuel playlist_id api_key f = Done r ->
  progress_file r = f.
Proof.
  unfold get_all_videos_from_playlist.
  destruct (lister_loop net playlist_id api_key fuel 0 JNull [] f)
    as [r'|t] eqn:E; simpl; [|discriminate].
  intros [= <-]; simpl; eapply lister_loop_file; exact E.
Qed.





(** The listing loop on an endpoint that serves a finite chain of pages. *)
Lemma lister_loop_serves net playlist_id api_key n token pages :
  serves net playlist_id api_key n token pages ->
  forall idss videos extra f,
    Forall2 (fun data ids => resolvable data = Ret ids) pages idss ->
    exists t,
      lister_loop net playlist_id api_key (length pages + extra) n token
        videos f =
      Done (mkRun (Ret (videos ++ concat idss)) f t) /\
      length (filter (fun e => match e with EGet _ _ => true | _ => false end)
                t) = length pages.
Proof.
  induction 1 as [n token data next G N T | n token data next pages G N T S IH];
    intros idss videos extra f F.
  - inversion F as [|? ids ? ? R F']; subst; inversion F'; subst.
    simpl; rewrite G; simpl.
    rewrite page_videos_acc, R; simpl.
    unfold next_page_token_of in N; rewrite N, T; simpl.
    rewrite app_nil_r; eexists; split; reflexivity.
  - inversion F as [|? ids ? idss' R F']; subst.
    simpl; rewrite G; simpl.
    rewrite page_videos_acc, R; simpl.
    unfold next_page_token_of in N; rewrite N, T.
    destruct (IH idss' (videos ++ ids) extra f F') as (t & -> & Len).
    simpl; unfold after; simpl.
    rewrite <- app_assoc; eexists; split; [reflexivity|].
    simpl; rewrite Len; reflexivity.
Qed.

(** What the Lister keeps of a page of entries: the video ids that are true
    values, in order. *)
Lemma resolvable_page_of (video_ids : list json) (next : json) :
  resolvable (page_of video_ids next) = Ret (filter truthy video_ids).
Proof.
  unfold resolvable, page_videos, page_of; simpl.
  change (append_videos (map item_of video_ids) [] =
          Ret (filter truthy video_ids)).
  rewrite <- (app_nil_l (filter truthy video_ids)).
  generalize (@nil json) as videos.
  induction video_ids as [|v vs IH]; intros videos; simpl.
  - rewrite app_nil_r; reflexivity.
  - change (video_id_of (item_of v)) with (Ret v).
    destruct (truthy v); rewrite IH; simpl;
      [rewrite <- app_assoc|]; reflexivity.
Qed.




(* ================================================================== *)
(** * The Inserter *)
(* ================================================================== *)

Lemma prints_only_ret {A} (a : A) : prints_only (ret a).
Proof. exists (Ret a), []; reflexivity. Qed.

Lemma prints_only_lift {A} (r : res A) : prints_only (lift r).
Proof. exists r, []; reflexivity. Qed.

Lemma prints_only_print (m : message) : prints_only (print m).
Proof. exists (Ret tt), [m]; reflexivity. Qed.

Lemma prints_only_bind {A B} (m : M A) (k : A -> M B) :
  prints_only m -> (forall a, prints_only (k a)) -> prints_only (bind m k).
Proof.
  intros (r & msgs & Hm) Hk; destruct r as [a|e].
  - destruct (Hk a) as (r' & msgs' & Hk').
    exists r', (msgs ++ msgs'); intros f.
    unfold bind; rewrite Hm; simpl; rewrite Hk'.
    unfold after; simpl; rewrite map_app; reflexivity.
  - exists (Exc e), msgs; intros f.
    unfold bind; rewrite Hm; reflexivity.
Qed.

Create HintDb inserter.
#[local] Hint Resolve prints_only_ret prints_only_lift prints_only_print
  : inserter.

Lemma report_api_error_prints (error_data : json) :
  prints_only (report_api_error error_data).
Proof.
  unfold report_api_error.
  apply prints_only_bind; [auto with inserter|]; intros [|];
    [|auto with inserter].
  repeat (apply prints_only_bind; [auto with inserter | intros ?]).
  auto with inserter.
Qed.

(** The handler of [add_video_to_playlist], after the request. *)
Lemma add_video_handler_prints (video_id : json) (o : post_outcome) :
  prints_only
    (match o with
     | PostOk => ret true
     | PostHttpError body =>
         print (MsgFailedToAdd video_id) ;;
         match body with
         | Some error_data => report_api_error error_data
         | None => print MsgCouldNotParse
         end ;;
         ret false
     | PostRequestException => print MsgUnexpectedError ;; ret false
     end).
Proof.
  destruct o as [|[error_data|]|]; [auto with inserter| | |];
    repeat (apply prints_only_bind;
            [auto using report_api_error_prints with inserter | intros _]);
    auto with inserter.
Qed.

(** A call of the Inserter makes one request and prints; what it returns
    depends on the answer only, and the progress file is not touched. *)
Lemma add_video_run net n playlist_id access_token video_id :
  exists msgs, forall f,
    add_video_to_playlist net n playlist_id access_token video_id f =
    mkRun
      (returned (add_video_to_playlist net n playlist_id access_token
                   video_id None))
      f
      (EPost video_id (net_post net n playlist_id access_token video_id)
       :: map EPrint msgs).
Proof.
  unfold add_video_to_playlist.
  destruct (add_video_handler_prints video_id
              (net_post net n playlist_id access_token video_id))
    as (r & msgs & H).
  exists msgs; intros f; unfold bind at 1 3; simpl.
  rewrite !H; reflexivity.
Qed.

(** The Inserter returns [True] for the answer [PostOk] and for no
    other. *)
Lemma add_video_true net n playlist_id access_token video_id f :
  returned (add_video_to_playlist net n playlist_id access_token video_id f)
  = Ret true <->
  net_post net n playlist_id access_token video_id = PostOk.
Proof.
  destruct (add_video_run net n playlist_id access_token video_id)
    as (msgs & H); rewrite H; simpl.
  unfold add_video_to_playlist.
  destruct (net_post net n playlist_id access_token video_id)
    as [|[error_data|]|] eqn:E.
  - split; reflexivity.
  - split; [|discriminate]; intros R; exfalso; revert R.
    destruct (report_api_error_prints error_data) as (r & ms & Hr).
    unfold bind, print, emit; simpl; rewrite Hr.
    destruct r; simpl; discriminate.
  - split; discriminate.
  - split; discriminate.
Qed.

(** With an HTTP error whose body is not JSON, or is an object without an
    ["error"] member, or carries the documented error object, and with any
    other request failure, the Inserter returns [False]. *)
Lemma add_video_false_cases net n playlist_id access_token video_id f :
  net_post net n playlist_id access_token video_id = PostRequestException \/
  net_post net n playlist_id access_token video_id = PostHttpError None \/
  net_post net n playlist_id access_token video_id =
    PostHttpError (Some (JObj [])) \/
  net_post net n playlist_id access_token video_id =
    PostHttpError (Some error_with_reason) ->
  returned (add_video_to_playlist net n playlist_id access_token video_id f)
  = Ret false.
Proof.
  unfold add_video_to_playlist.
  intros [-> | [-> | [-> | ->]]]; reflexivity.
Qed.

(** Whatever else the ["error"] object of an HTTP error body holds, without
    an ["errors"] member the Inserter raises [TypeError]. *)
Lemma add_video_raises_without_errors net n playlist_id access_token
    video_id f (members others : list (pystr * json)) :
  net_post net n playlist_id access_token video_id =
    PostHttpError (Some (JObj ((py "error", JObj members) :: others))) ->
  assoc (py "errors") members = None ->
  returned (add_video_to_playlist net n playlist_id access_token video_id f)
  = Exc TypeError.
Proof.
  intros E A; unfold add_video_to_playlist; rewrite E.
  unfold report_api_error, bind, lift, print, emit, ret, after; simpl.
  rewrite A; reflexivity.
Qed.

(** C6: the claim does not hold of the code.  On an HTTP error whose body
    has an ["error"] object without an ["errors"] list,
    [error_data['error'].get('errors')] is [None], the subscript [[0]]
    raises [TypeError], the handler catches [json.JSONDecodeError] only,
    and the exception leaves the Inserter, and [main] with it: the run
    stops without summary line. *)
Theorem add_video_raises_type_error :
  returned (add_video_to_playlist net_forbidden 0 (py "PL_DEST")
              (py "TOKEN") (JStr (py "A")) None) = Exc TypeError /\
  exists r,
    main net_forbidden script_config utf8 2 None = Done r /\
    returned r = Exc TypeError /\
    posts (trace r) = [JStr (py "A")] /\
    ~ In (EPrint MsgStopping) (trace r).
Proof.
  split; [reflexivity|].
  eexists; split; [reflexivity|].
  split; [reflexivity|]; split; [reflexivity|].
  vm_compute; intuition discriminate.
Qed.

(* ================================================================== *)
(** * The transfer loop *)
(* ================================================================== *)

(** ** Runs of the monad *)

#[local] Arguments add_video_to_playlist : simpl never.

Lemma bind_eq {A B} (m : M A) (k : A -> M B) (f : option pystr) :
  bind m k f =
  match returned (m f) with
  | Ret a => after (trace (m f)) (k a (progress_file (m f)))
  | Exc e => mkRun (Exc e) (progress_file (m f)) (trace (m f))
  end.
Proof. reflexivity. Qed.

Lemma after_after {A} (t1 t2 : list event) (r : run A) :
  after t1 (after t2 r) = after (t1 ++ t2) r.
Proof. unfold after; simpl; rewrite app_assoc; reflexivity. Qed.

Lemma after_nil {A} (r : run A) : after [] r = r.
Proof. destruct r; reflexivity. Qed.

Lemma trace_after {A} (t : list event) (r : run A) :
  trace (after t r) = t ++ trace r.
Proof. reflexivity. Qed.

Lemma after_run {A} (t : list event) (v : res A) (f : option pystr)
    (t' : list event) :
  after t (mkRun v f t') = mkRun v f (t ++ t').
Proof. reflexivity. Qed.

Lemma print_run (m : message) (f : option pystr) :
  print m f = mkRun (Ret tt) f [EPrint m].
Proof. reflexivity. Qed.

Lemma emit_run (e : event) (f : option pystr) :
  emit e f = mkRun (Ret tt) f [e].
Proof. reflexivity. Qed.

Lemma ret_run {A} (a : A) (f : option pystr) : ret a f = mkRun (Ret a) f [].
Proof. reflexivity. Qed.

Lemma add_video_ok net n playlist_id access_token video_id f :
  net_post net n playlist_id access_token video_id = PostOk ->
  add_video_to_playlist net n playlist_id access_token video_id f =
  mkRun (Ret true) f [EPost video_id PostOk].
Proof.
  intros E; unfold add_video_to_playlist; rewrite E; reflexivity.
Qed.

(** ** Traces *)

Lemma posts_app (t1 t2 : list event) : posts (t1 ++ t2) = posts t1 ++ posts t2.
Proof.
  induction t1 as [|e t1 IH]; simpl; [reflexivity|].
  destruct e; simpl; rewrite IH; reflexivity.
Qed.

Lemma posts_prints (msgs : list message) : posts (map EPrint msgs) = [].
Proof. induction msgs; simpl; auto. Qed.

Lemma successes_app (t1 t2 : list event) :
  successes (t1 ++ t2) = successes t1 + successes t2.
Proof. unfold successes; rewrite filter_app, length_app; reflexivity. Qed.

Lemma successes_prints (msgs : list message) :
  successes (map EPrint msgs) = 0.
Proof. induction msgs; simpl; auto. Qed.

Lemma in_prints (e : event) (msgs : list message) :
  In e (map EPrint msgs) -> exists m, e = EPrint m.
Proof.
  rewrite in_map_iff; intros (m & <- & _); exists m; reflexivity.
Qed.





(** ** The last lines of [main] *)

Lemma finish_run (k total : nat) (f : option pystr) :
  finish k total f =
  mkRun (Ret tt)
    (if k =? total then None else f)
    ([EPrint MsgSeparator; EPrint (MsgSummary k total)] ++
     if k =? total then
       EPrint MsgDeleting :: match f with Some _ => [ERemove] | None => [] end
     else []).
Proof.
  unfold finish, bind; simpl.
  destruct (k =? total); [destruct f|]; reflexivity.
Qed.

Lemma finish_posts (k total : nat) (f : option pystr) :
  posts (trace (finish k total f)) = [] /\
  successes (trace (finish k total f)) = 0.
Proof.
  rewrite finish_run; simpl.
  destruct (k =? total); [destruct f|]; split; reflexivity.
Qed.

Lemma finish_checkpointed (k total : nat) (f : option pystr) :
  checkpointed (trace (finish k total f)).
Proof.
  rewrite finish_run; cbn [trace app].
  do 2 (apply checkpointed_neutral; [exact I|]).
  destruct (k =? total); [|constructor].
  apply checkpointed_neutral; [exact I|].
  destruct f; constructor.
Qed.

(** ** The transfer of a work list, on a given network *)

Section Transfer.

Variable net : network.
Variable cfg : config.
Variable enc : encoding.

(** *** The loop *)

(** One turn of the loop, whatever the videos after it: the insertion
    succeeds and the video is saved; it succeeds and the write raises (the
    video is not a string, or a string that cannot be encoded); it fails
    and the loop is left; the Inserter raises. *)
Lemma transfer_loop_turn total i video_id k f :
  let o := net_post net i (DESTINATION_PLAYLIST_ID cfg) (ACCESS_TOKEN cfg)
             video_id in
  let adding := EPrint (MsgAdding (i + 1) total video_id) in
  let r := fun rest => transfer_loop net cfg enc total i (video_id :: rest) k f in
  (exists s,
     video_id = JStr s /\ o = PostOk /\
     inserted net cfg i video_id = Ret true /\
     forall rest,
       r rest = after [adding; EPost video_id PostOk; ESave s; ESleep]
                  (transfer_loop net cfg enc total (S i) rest (S k) (Some s))) \/
  (exists e,
     written enc video_id = Exc e /\ o = PostOk /\
     inserted net cfg i video_id = Ret true /\
     forall rest,
       r rest = mkRun (Exc e) (Some [])
                  [adding; EPost video_id PostOk; ETruncate]) \/
  (exists msgs,
     o <> PostOk /\ inserted net cfg i video_id = Ret false /\
     forall rest,
       r rest = mkRun (Ret k) f
                  ([adding; EPost video_id o] ++ map EPrint msgs ++
                   [EPrint MsgStopping])) \/
  (exists msgs e,
     o <> PostOk /\ inserted net cfg i video_id = Exc e /\
     forall rest,
       r rest = mkRun (Exc e) f
                  ([adding; EPost video_id o] ++ map EPrint msgs)).
Proof.
  intros o adding r.
  assert (R : forall rest, r rest =
    (print (MsgAdding (i + 1) total video_id) ;;
     ok <- add_video_to_playlist net i (DESTINATION_PLAYLIST_ID cfg)
             (ACCESS_TOKEN cfg) video_id ;;
     if ok then
       save_last_video_id enc video_id ;;
       emit ESleep ;;
       transfer_loop net cfg enc total (S i) rest (S k)
     else print MsgStopping ;; ret k) f) by reflexivity.
  clearbody r.
  destruct (add_video_run net i (DESTINATION_PLAYLIST_ID cfg)
              (ACCESS_TOKEN cfg) video_id) as (msgs & H).
  fold (inserted net cfg i video_id) in H; fold o in H.
  destruct (inserted net cfg i video_id) as [[|]|e] eqn:I.
  - assert (O : o = PostOk) by (apply add_video_true with (f := None), I).
    assert (T : EPost video_id o :: map EPrint msgs = [EPost video_id PostOk]).
    { generalize (H None); unfold o in O.
      rewrite (add_video_ok _ _ _ _ _ _ O); intros [= <- <-]; reflexivity. }
    rewrite T in H.
    destruct (written enc video_id) as [s|e] eqn:W.
    + left; exists s; destruct (@written_ret enc _ s W) as [-> _].
      split; [reflexivity|]; split; [exact O|]; split; [reflexivity|].
      intros rest; rewrite R.
      rewrite bind_eq, print_run; cbn [returned progress_file trace].
      rewrite bind_eq, H; cbn [returned progress_file trace].
      rewrite bind_eq, (@save_written_run enc (JStr s) s W).
      cbn [returned progress_file trace].
      rewrite bind_eq, emit_run; cbn [returned progress_file trace].
      rewrite !after_after; reflexivity.
    + right; left; exists e.
      split; [reflexivity|]; split; [exact O|]; split; [reflexivity|].
      intros rest; rewrite R.
      rewrite bind_eq, print_run; cbn [returned progress_file trace].
      rewrite bind_eq, H; cbn [returned progress_file trace].
      rewrite bind_eq, (@save_raises_run enc video_id e W); reflexivity.
  - right; right; left; exists msgs; split; [|split; [reflexivity|]].
    + intros O; apply (add_video_true net i _ _ video_id None) in O.
      unfold inserted in I; congruence.
    + intros rest; rewrite R.
      rewrite bind_eq, print_run; cbn [returned progress_file trace].
      rewrite bind_eq, H; cbn [returned progress_file trace].
      rewrite bind_eq, print_run; cbn [returned progress_file trace].
      rewrite ret_run; reflexivity.
  - right; right; right; exists msgs, e; split; [|split; [reflexivity|]].
    + intros O; apply (add_video_true net i _ _ video_id None) in O.
      unfold inserted in I; congruence.
    + intros rest; rewrite R.
      rewrite bind_eq, print_run; cbn [returned progress_file trace].
      rewrite bind_eq, H; reflexivity.
Qed.

Lemma transfer_loop_step total i video_id rest k f :
  let o := net_post net i (DESTINATION_PLAYLIST_ID cfg) (ACCESS_TOKEN cfg)
             video_id in
  let adding := EPrint (MsgAdding (i + 1) total video_id) in
  let r := transfer_loop net cfg enc total i (video_id :: rest) k f in
  (exists s,
     video_id = JStr s /\ o = PostOk /\
     inserted net cfg i video_id = Ret true /\
     r = after [adding; EPost video_id PostOk; ESave s; ESleep]
           (transfer_loop net cfg enc total (S i) rest (S k) (Some s))) \/
  (exists e,
     written enc video_id = Exc e /\ o = PostOk /\
     inserted net cfg i video_id = Ret true /\
     r = mkRun (Exc e) (Some [])
           [adding; EPost video_id PostOk; ETruncate]) \/
  (exists msgs,
     o <> PostOk /\ inserted net cfg i video_id = Ret false /\
     r = mkRun (Ret k) f
           ([adding; EPost video_id o] ++ map EPrint msgs ++
            [EPrint MsgStopping])) \/
  (exists msgs e,
     o <> PostOk /\ inserted net cfg i video_id = Exc e /\
     r = mkRun (Exc e) f ([adding; EPost video_id o] ++ map EPrint msgs)).
Proof.
  intros o adding r.
  destruct (transfer_loop_turn total i video_id k f)
    as [(s & E & O & I & R) | [(e & W & O & I & R) |
        [(msgs & O & I & R) | (msgs & e & O & I & R)]]].
  - left; exists s; repeat split; try assumption; apply R.
  - right; left; exists e; repeat split; try assumption; apply R.
  - right; right; left; exists msgs; repeat split; try assumption; apply R.
  - right; right; right; exists msgs, e; repeat split; try assumption; apply R.
Qed.

(** The loop removes nothing. *)
Lemma transfer_loop_keeps total videos :
  forall i k f, ~ In ERemove (trace (transfer_loop net cfg enc total i videos k f)).
Proof.
  induction videos as [|v rest IH]; intros i k f; [simpl; tauto|].
  destruct (transfer_loop_step total i v rest k f)
    as [(s & _ & _ & _ & ->) | [(e' & _ & _ & _ & ->) |
        [(msgs & _ & _ & ->) | (msgs & e & _ & _ & ->)]]]; simpl.
  - intros [E | [E | [E | [E | Hin]]]]; try discriminate.
    revert Hin; apply IH.
  - intuition discriminate.
  - intros [E | [E | Hin]]; try discriminate.
    apply in_app_or in Hin; destruct Hin as [Hin | [E | []]];
      [|discriminate].
    apply in_prints in Hin; destruct Hin; discriminate.
  - intros [E | [E | Hin]]; try discriminate.
    apply in_prints in Hin; destruct Hin; discriminate.
Qed.

(** What the loop returns is [successful_additions] plus the number of
    insertions that succeeded; when that is all of them, every video has
    been posted. *)
Lemma transfer_loop_count total videos :
  forall i k f k',
    returned (transfer_loop net cfg enc total i videos k f) = Ret k' ->
    k' = k + successes (trace (transfer_loop net cfg enc total i videos k f)) /\
    k' <= k + length videos /\
    (k' = k + length videos ->
     posts (trace (transfer_loop net cfg enc total i videos k f)) = videos).
Proof.
  induction videos as [|v rest IH]; intros i k f k'.
  - simpl; intros [= <-]; repeat split; auto; lia.
  - destruct (transfer_loop_step total i v rest k f)
      as [(s & _ & _ & _ & ->) | [(e' & _ & _ & _ & ->) |
          [(msgs & O & _ & ->) | (msgs & e & _ & _ & ->)]]]; simpl;
      try discriminate.
    + intros R; destruct (IH _ _ _ _ R) as (H1 & H2 & H3).
      unfold successes in *; simpl.
      repeat split; [lia | lia |].
      intros E; rewrite H3; [reflexivity | lia].
    + intros [= <-]; repeat split; [|lia|lia].
      unfold successes; simpl.
      destruct (net_post net i (DESTINATION_PLAYLIST_ID cfg)
                  (ACCESS_TOKEN cfg) v); try congruence; simpl;
        rewrite filter_app; fold (successes (map EPrint msgs));
        rewrite length_app; fold (successes (map EPrint msgs));
        rewrite successes_prints; simpl; lia.
Qed.

Lemma transfer_run videos f :
  transfer net cfg enc videos f =
  let l := transfer_loop net cfg enc (length videos) 0 videos 0 f in
  match returned l with
  | Ret k =>
      after (EPrint (MsgStarting (length videos)) :: trace l)
        (finish k (length videos) (progress_file l))
  | Exc e =>
      mkRun (Exc e) (progress_file l)
        (EPrint (MsgStarting (length videos)) :: trace l)
  end.
Proof.
  unfold transfer; rewrite bind_eq, print_run.
  cbn [returned progress_file trace]; rewrite bind_eq.
  cbv zeta.
  destruct (returned (transfer_loop net cfg enc (length videos) 0 videos 0 f));
    [rewrite after_after|]; reflexivity.
Qed.

(** The insertion requests of a transfer are those of its loop. *)
Lemma transfer_posts videos f :
  posts (trace (transfer net cfg enc videos f)) =
  posts (trace (transfer_loop net cfg enc (length videos) 0 videos 0 f)) /\
  successes (trace (transfer net cfg enc videos f)) =
  successes (trace (transfer_loop net cfg enc (length videos) 0 videos 0 f)).
Proof.
  rewrite transfer_run; cbv zeta.
  destruct (returned (transfer_loop net cfg enc (length videos) 0 videos 0 f))
    as [k|e]; [|split; reflexivity].
  cbn [after trace].
  change (EPrint (MsgStarting (length videos))
          :: trace (transfer_loop net cfg enc (length videos) 0 videos 0 f))
    with ([EPrint (MsgStarting (length videos))] ++
          trace (transfer_loop net cfg enc (length videos) 0 videos 0 f)).
  rewrite !posts_app, !successes_app.
  destruct (finish_posts k (length videos)
              (progress_file
                 (transfer_loop net cfg enc (length videos) 0 videos 0 f)))
    as [-> ->].
  rewrite app_nil_r; simpl; split; [reflexivity | lia].
Qed.

(** *** Halt on failure *)

Lemma transfer_loop_halt total videos :
  forall i k f m v,
    m < length (posts (trace (transfer_loop net cfg enc total i videos k f))) ->
    nth_error videos m = Some v ->
    inserted net cfg (i + m) v = Ret false ->
    posts (trace (transfer_loop net cfg enc total i videos k f))
      = firstn (S m) videos /\
    returned (transfer_loop net cfg enc total i videos k f) = Ret (k + m) /\
    (m = 0 -> progress_file (transfer_loop net cfg enc total i videos k f) = f) /\
    (0 < m ->
     option_map JStr (progress_file (transfer_loop net cfg enc total i videos k f))
       = nth_error videos (m - 1)).
Proof.
  induction videos as [|v0 rest IH]; intros i k f m v.
  - destruct m; discriminate.
  - destruct (transfer_loop_step total i v0 rest k f)
      as [(s & -> & _ & I & ->) | [(e' & _ & _ & I & ->) |
          [(msgs & _ & I & ->) | (msgs & e & _ & I & ->)]]];
      cbn [trace after posts app length].
    + destruct m as [|m]; simpl nth_error.
      * intros _ [= <-]; rewrite Nat.add_0_r; congruence.
      * intros L N F.
        replace (i + S m) with (S i + m) in F by lia.
        destruct (IH (S i) (S k) (Some s) m v) as (H1 & H2 & H3 & H4);
          [lia | exact N | exact F |].
        cbn [returned progress_file after].
        rewrite H1, H2; repeat split; [f_equal; lia | lia |].
        intros _; rewrite Nat.sub_0_r; destruct m as [|m].
        -- rewrite H3; reflexivity.
        -- rewrite H4 by lia; simpl; rewrite Nat.sub_0_r; reflexivity.
    + destruct m as [|m]; simpl nth_error.
      * intros _ [= <-]; rewrite Nat.add_0_r; congruence.
      * simpl; lia.
    + rewrite posts_app, posts_prints; simpl.
      destruct m as [|m]; [|simpl; lia].
      intros _ _ _; rewrite Nat.add_0_r.
      repeat split; lia.
    + rewrite posts_prints; simpl.
      destruct m as [|m]; [|simpl; lia].
      simpl; intros _ [= <-]; rewrite Nat.add_0_r; congruence.
Qed.

(** C1.  If the [M]-th video of the work list is posted and its insertion
    returns [False], the insertion requests of the run are those of the
    first [M] videos and no other; the progress file is as it was before
    the run when [M = 1] (absent if it was absent), and holds the
    [(M-1)]-th video otherwise. *)
Theorem halt_on_failure (videos : list json) (f : option pystr)
    (M : nat) (v : json) :
  1 <= M ->
  M <= length (posts (trace (transfer net cfg enc videos f))) ->
  nth_error videos (M - 1) = Some v ->
  inserted net cfg (M - 1) v = Ret false ->
  posts (trace (transfer net cfg enc videos f)) = firstn M videos /\
  (M = 1 -> progress_file (transfer net cfg enc videos f) = f) /\
  (1 < M ->
   option_map JStr (progress_file (transfer net cfg enc videos f))
     = nth_error videos (M - 2)).
Proof.
  intros HM L N F.
  destruct (transfer_posts videos f) as [P _].
  rewrite P in *.
  assert (L' : M - 1 <
    length (posts (trace (transfer_loop net cfg enc (length videos) 0 videos 0 f))))
    by lia.
  destruct (@transfer_loop_halt (length videos) videos 0 0 f (M - 1) v
              L' N F) as (H1 & H2 & H3 & H4).
  assert (Lt : M - 1 < length videos)
    by (apply nth_error_Some; congruence).
  rewrite H1; replace (S (M - 1)) with M by lia.
  split; [reflexivity|].
  rewrite transfer_run; cbv zeta; rewrite H2, finish_run.
  replace (0 + (M - 1) =? length videos) with false
    by (symmetry; apply Nat.eqb_neq; lia).
  cbn [after trace progress_file].
  split.
  - intros ->; apply H3; reflexivity.
  - intros HM'; rewrite H4 by lia; f_equal; lia.
Qed.

(** *** Completion *)

(** When every insertion succeeds and every identifier can be written, the
    loop counts all the videos and leaves the last one in the progress
    file. *)
Lemma transfer_loop_all_ok total (ids : list pystr) :
  forall i k f,
    Forall (fun s => encodes enc s = true) ids ->
    (forall j s, nth_error ids j = Some s ->
                 inserted net cfg (i + j) (JStr s) = Ret true) ->
    returned (transfer_loop net cfg enc total i (map JStr ids) k f)
      = Ret (k + length ids) /\
    progress_file (transfer_loop net cfg enc total i (map JStr ids) k f)
      = match ids with [] => f | _ :: _ => Some (last ids []) end.
Proof.
  induction ids as [|id ids IH]; intros i k f En H.
  - simpl; split; [f_equal; lia | reflexivity].
  - assert (H0 : inserted net cfg i (JStr id) = Ret true)
      by (rewrite <- (Nat.add_0_r i); apply H; reflexivity).
    inversion En as [|? ? E0 En']; subst.
    destruct (transfer_loop_step total i (JStr id) (map JStr ids) k f)
      as [(s & Es & _ & _ & E) | [(e & W & _) |
          [(msgs & _ & I & _) | (msgs & e & _ & I & _)]]].
    2: rewrite (@written_encodable enc _ E0) in W; discriminate.
    2-3: congruence.
    injection Es as <-.
    change (map JStr (id :: ids)) with (JStr id :: map JStr ids).
    rewrite E; cbn [after returned progress_file].
    destruct (IH (S i) (S k) (Some id) En') as [R P].
    + intros j s Hj; replace (S i + j) with (i + S j) by lia.
      apply H; exact Hj.
    + rewrite R, P; split; [f_equal; simpl; lia|].
      destruct ids; reflexivity.
Qed.

(** A progress file that is there before the loop, or is written in it, is
    there after the loop. *)
Lemma transfer_loop_file total videos :
  forall i k f,
    progress_file (transfer_loop net cfg enc total i videos k f) = None ->
    f = None /\
    successes (trace (transfer_loop net cfg enc total i videos k f)) = 0.
Proof.
  induction videos as [|v rest IH]; intros i k f.
  - simpl; intros ->; split; reflexivity.
  - destruct (transfer_loop_step total i v rest k f)
      as [(s & _ & _ & _ & ->) | [(e' & _ & _ & _ & ->) |
          [(msgs & O & _ & ->) | (msgs & e & O & _ & ->)]]];
      cbn [after trace progress_file].
    + intros P; destruct (IH _ _ _ P) as [D _]; discriminate.
    + discriminate.
    + intros ->; split; [reflexivity|].
      rewrite successes_app, successes_app, successes_prints.
      unfold successes; simpl.
      destruct (net_post net i (DESTINATION_PLAYLIST_ID cfg)
                  (ACCESS_TOKEN cfg) v); [congruence | |]; reflexivity.
    + intros ->; split; [reflexivity|].
      rewrite successes_app, successes_prints.
      unfold successes; simpl.
      destruct (net_post net i (DESTINATION_PLAYLIST_ID cfg)
                  (ACCESS_TOKEN cfg) v); [congruence | |]; reflexivity.
Qed.

(** C4, amended.  When the work list is not empty, its identifiers are
    strings that the encoding of the progress file can encode, and every
    insertion succeeds, the run ends without a progress file, which it has
    removed; a run that removes the progress file, whatever the work
    list, has posted every video of the list, each insertion having
    succeeded; and when there is no progress file after a run, either
    every insertion of the list has succeeded, or there was no progress
    file before the run and no insertion has succeeded. *)
Theorem completion_clears_checkpoint (ids : list pystr)
    (videos : list json) (f : option pystr) :
  (ids <> [] ->
   Forall (fun s => encodes enc s = true) ids ->
   (forall j s, nth_error ids j = Some s ->
                inserted net cfg j (JStr s) = Ret true) ->
   returned (transfer net cfg enc (map JStr ids) f) = Ret tt /\
   progress_file (transfer net cfg enc (map JStr ids) f) = None /\
   In ERemove (trace (transfer net cfg enc (map JStr ids) f))) /\
  (In ERemove (trace (transfer net cfg enc videos f)) ->
   successes (trace (transfer net cfg enc videos f)) = length videos /\
   posts (trace (transfer net cfg enc videos f)) = videos) /\
  (progress_file (transfer net cfg enc videos f) = None ->
   successes (trace (transfer net cfg enc videos f)) = length videos \/
   (f = None /\ successes (trace (transfer net cfg enc videos f)) = 0)).
Proof.
  split; [|split].
  - intros NE En H.
    destruct (@transfer_loop_all_ok (length (map JStr ids)) ids 0 0 f En)
      as [R P]; [exact H|].
    rewrite transfer_run; cbv zeta; rewrite R, P, finish_run.
    rewrite length_map, Nat.add_0_l, Nat.eqb_refl.
    destruct ids as [|id ids]; [congruence|].
    cbn [after returned progress_file trace].
    repeat split; apply in_or_app; right; simpl; auto.
  - intros Hin.
    destruct (transfer_posts videos f) as [-> ->].
    revert Hin; rewrite transfer_run; cbv zeta.
    pose proof (@transfer_loop_keeps (length videos) videos 0 0 f)
      as K.
    pose proof (@transfer_loop_count (length videos) videos 0 0 f)
      as C.
    destruct (returned (transfer_loop net cfg enc (length videos) 0 videos 0 f))
      as [k|e].
    + destruct (C k eq_refl) as (C1 & C2 & C3).
      rewrite finish_run; cbn [after trace].
      destruct (k =? length videos) eqn:E.
      * apply Nat.eqb_eq in E; intros _.
        split; [lia | apply C3; lia].
      * intros [D | Hin]; [discriminate|].
        apply in_app_or in Hin; destruct Hin as [Hin | Hin];
          [contradiction|].
        simpl in Hin; intuition discriminate.
    + cbn [trace]; intros [D | Hin]; [discriminate | contradiction].
  - destruct (transfer_posts videos f) as [_ ->].
    rewrite transfer_run; cbv zeta.
    pose proof (@transfer_loop_file (length videos) videos 0 0 f) as P.
    pose proof (@transfer_loop_count (length videos) videos 0 0 f) as C.
    destruct (returned (transfer_loop net cfg enc (length videos) 0 videos 0 f))
      as [k|e]; cbn [after progress_file].
    + destruct (C k eq_refl) as (C1 & _ & _).
      rewrite finish_run; cbn [progress_file].
      destruct (k =? length videos) eqn:E.
      * apply Nat.eqb_eq in E; intros _; left; lia.
      * intros N; right; exact (P N).
    + intros N; right; exact (P N).
Qed.

(** *** The checkpoint follows the insertions *)







End Transfer.

(** ** The theorems on the runs of the specification's scenario *)

(** [A] and [B] are inserted and the insertion of [C] fails: three videos
    are posted and the progress file holds ["B"]. *)
Lemma halt_on_failure_witness :
  1 <= 3 /\
  3 <= length (posts (trace (transfer net_third_fails script_config utf8
                               (map JStr abcd) None))) /\
  nth_error (map JStr abcd) (3 - 1) = Some (JStr (py "C")) /\
  inserted net_third_fails script_config (3 - 1) (JStr (py "C")) = Ret false /\
  posts (trace (transfer net_third_fails script_config utf8
                  (map JStr abcd) None))
    = firstn 3 (map JStr abcd) /\
  (3 = 1 -> progress_file (transfer net_third_fails script_config utf8
                             (map JStr abcd) None) = None) /\
  (1 < 3 ->
   option_map JStr (progress_file (transfer net_third_fails script_config
                                     utf8 (map JStr abcd) None))
     = nth_error (map JStr abcd) (3 - 2)).
Proof.
  assert (H1 : 1 <= 3) by lia.
  assert (H2 : 3 <= length (posts (trace (transfer net_third_fails
                 script_config utf8 (map JStr abcd) None))))
    by (vm_compute; lia).
  assert (H3 : nth_error (map JStr abcd) (3 - 1) = Some (JStr (py "C")))
    by reflexivity.
  assert (H4 : inserted net_third_fails script_config (3 - 1) (JStr (py "C"))
               = Ret false) by reflexivity.
  split; [exact H1 | split; [exact H2 | split; [exact H3 | split;
    [exact H4 |]]]].
  exact (@halt_on_failure net_third_fails script_config utf8 (map JStr abcd)
           None 3 (JStr (py "C")) H1 H2 H3 H4).
Defined.

(** C4, as it is stated, fails: the work list holds one video, whose id is
    the number 7 (a list that the Lister can return); its insertion
    succeeds; writing the number to the progress file raises [TypeError],
    and the progress file, which held ["old"], is left empty, not
    removed. *)
Lemma completion_with_number_keeps_file :
  listed [JNum 7] /\
  inserted net_two_pages script_config 0 (JNum 7) = Ret true /\
  successes (trace (transfer net_two_pages script_config utf8 [JNum 7]
                      (Some (py "old")))) = length [JNum 7] /\
  returned (transfer net_two_pages script_config utf8 [JNum 7]
              (Some (py "old"))) = Exc TypeError /\
  progress_file (transfer net_two_pages script_config utf8 [JNum 7]
                   (Some (py "old"))) = Some [] /\
  ~ In ERemove (trace (transfer net_two_pages script_config utf8 [JNum 7]
                         (Some (py "old")))).
Proof.
  split.
  { exists (net_one_page [JNum 7]), 1, (py "PL"), (py "KEY"), None.
    eexists; split; reflexivity. }
  repeat split; vm_compute; intuition discriminate.
Qed.

(** All four insertions succeed: the progress file, which held ["old"], is
    removed after four successes. *)
Lemma completion_clears_checkpoint_witness :
  abcd <> [] /\
  Forall (fun s => encodes utf8 s = true) abcd /\
  (forall j s, nth_error abcd j = Some s ->
               inserted net_two_pages script_config j (JStr s) = Ret true) /\
  (returned (transfer net_two_pages script_config utf8 (map JStr abcd)
               (Some (py "old"))) = Ret tt /\
   progress_file (transfer net_two_pages script_config utf8 (map JStr abcd)
                    (Some (py "old"))) = None /\
   In ERemove (trace (transfer net_two_pages script_config utf8
                        (map JStr abcd) (Some (py "old"))))) /\
  successes (trace (transfer net_two_pages script_config utf8 (map JStr abcd)
                      (Some (py "old")))) = length (map JStr abcd) /\
  posts (trace (transfer net_two_pages script_config utf8 (map JStr abcd)
                  (Some (py "old")))) = map JStr abcd /\
  (successes (trace (transfer net_two_pages script_config utf8
                       (map JStr abcd) (Some (py "old"))))
   = length (map JStr abcd) \/
   (Some (py "old") = None /\
    successes (trace (transfer net_two_pages script_config utf8
                        (map JStr abcd) (Some (py "old")))) = 0)).
Proof.
  assert (H1 : abcd <> []) by discriminate.
  assert (H0 : Forall (fun s => encodes utf8 s = true) abcd)
    by (repeat constructor).
  assert (H2 : forall j s, nth_error abcd j = Some s ->
               inserted net_two_pages script_config j (JStr s) = Ret true)
    by (intros j s _; reflexivity).
  pose proof (@completion_clears_checkpoint net_two_pages script_config utf8
                abcd (map JStr abcd) (Some (py "old"))) as (T1 & T2 & T3).
  split; [exact H1 | split; [exact H0 | split; [exact H2 | split;
    [exact (T1 H1 H0 H2) |]]]].
  destruct (T2 (proj2 (proj2 (T1 H1 H0 H2)))) as [S P].
  split; [exact S | split; [exact P |]].
  exact (T3 (proj1 (proj2 (T1 H1 H0 H2)))).
Defined.



(* ================================================================== *)
(** * The orchestrator *)
(* ================================================================== *)

(** The Lister posts nothing. *)
Lemma lister_loop_posts net playlist_id api_key fuel :
  forall n token videos f,
    posts (so_far (lister_loop net playlist_id api_key fuel n token videos f))
    = [].
Proof.
  induction fuel as [|fuel IH]; intros n token videos f; [reflexivity|].
  simpl; rewrite so_far_after; simpl.
  destruct (net_get net n playlist_id api_key token) as [| | |data];
    try reflexivity.
  destruct (page_videos data videos) as [videos'|e]; [|reflexivity].
  destruct (py_get data (py "nextPageToken") JNull) as [next|e];
    [|reflexivity].
  destruct (truthy next); [apply IH | reflexivity].
Qed.

Lemma lister_posts net fuel playlist_id api_key f :
  posts (so_far (get_all_videos_from_playlist net fuel playlist_id api_key f))
  = [].
Proof.
  unfold get_all_videos_from_playlist; rewrite so_far_after; simpl.
  apply lister_loop_posts.
Qed.

(** [main], once the Lister has returned. *)
Lemma main_run net cfg enc fuel f l :
  all_set cfg = true ->
  get_all_videos_from_playlist net fuel (SOURCE_PLAYLIST_ID cfg)
    (API_KEY cfg) f = Done l ->
  main net cfg enc fuel f =
  Done match returned l with
       | Ret video_ids => after (trace l) (main_from net cfg enc video_ids f)
       | Exc e => mkRun (Exc e) f (trace l)
       end.
Proof.
  intros A L; unfold main; rewrite A, L, (lister_file _ _ _ _ _ L).
  destruct (returned l); reflexivity.
Qed.

(** C8, as it is stated, fails: the playlist is empty, the Lister returns
    the empty list, and the progress file that held ["B"] before the run
    still holds it after the run. *)
Lemma empty_listing_keeps_checkpoint :
  exists l r,
    get_all_videos_from_playlist net_empty 1
      (SOURCE_PLAYLIST_ID script_config) (API_KEY script_config)
      (Some (py "B")) = Done l /\
    returned l = Ret [] /\
    main net_empty script_config utf8 1 (Some (py "B")) = Done r /\
    progress_file r = Some (py "B") /\
    progress_file r <> None.
Proof.
  do 2 eexists; split; [reflexivity|]; split; [reflexivity|].
  split; [reflexivity|]; split; [reflexivity | discriminate].
Qed.

(** C8, amended.  When the Lister returns the empty list, [main] prints
    that there is nothing to transfer and returns: no insertion request is
    made, and the progress file is left as it was (a file that exists is
    not removed). *)
Theorem empty_listing_ends_run net cfg enc fuel f l :
  all_set cfg = true ->
  get_all_videos_from_playlist net fuel (SOURCE_PLAYLIST_ID cfg)
    (API_KEY cfg) f = Done l ->
  returned l = Ret [] ->
  exists r,
    main net cfg enc fuel f = Done r /\
    returned r = Ret tt /\
    trace r = trace l ++ [EPrint MsgNoVideos] /\
    posts (trace r) = [] /\
    ~ In ERemove (trace r) /\
    progress_file r = f.
Proof.
  intros A L R; rewrite (@main_run net cfg enc fuel f l A L), R.
  eexists; split; [reflexivity|]; cbn [main_from after print emit trace
    returned progress_file].
  repeat split.
  - rewrite posts_app; simpl; rewrite app_nil_r.
    pose proof (lister_posts net fuel (SOURCE_PLAYLIST_ID cfg) (API_KEY cfg) f)
      as P; rewrite L in P; exact P.
  - intros Hin; apply in_app_or in Hin; destruct Hin as [Hin | [D | []]];
      [|discriminate].
    clear - L Hin; revert L Hin.
    unfold get_all_videos_from_playlist.
    assert (K : forall fuel n token videos,
              ~ In ERemove (so_far (lister_loop net (SOURCE_PLAYLIST_ID cfg)
                                      (API_KEY cfg) fuel n token videos f))).
    { clear; induction fuel as [|fuel IH]; intros n token videos;
        [simpl; tauto|].
      simpl; rewrite so_far_after; simpl.
      destruct (net_get net n (SOURCE_PLAYLIST_ID cfg) (API_KEY cfg) token)
        as [| | |data]; simpl; try (intuition discriminate).
      destruct (page_videos data videos) as [videos'|e]; simpl;
        [|intuition discriminate].
      destruct (py_get data (py "nextPageToken") JNull) as [next|e]; simpl;
        [|intuition discriminate].
      destruct (truthy next); simpl; [|intuition discriminate].
      intros [D | Hin]; [discriminate | revert Hin; apply IH]. }
    intros L Hin; apply (K fuel 0 JNull []).
    destruct (lister_loop net (SOURCE_PLAYLIST_ID cfg) (API_KEY cfg) fuel 0
                JNull [] f) as [r'|t]; simpl in L; [|discriminate].
    injection L as <-; simpl in Hin; destruct Hin as [D | Hin];
      [discriminate | exact Hin].
Qed.

(** The run on the empty playlist with ["B"] in the progress file. *)
Lemma empty_listing_ends_run_witness :
  all_set script_config = true /\
  (exists l,
     get_all_videos_from_playlist net_empty 1
       (SOURCE_PLAYLIST_ID script_config) (API_KEY script_config)
       (Some (py "B")) = Done l /\
     returned l = Ret [] /\
     exists r,
       main net_empty script_config utf8 1 (Some (py "B")) = Done r /\
       returned r = Ret tt /\
       trace r = trace l ++ [EPrint MsgNoVideos] /\
       posts (trace r) = [] /\
       ~ In ERemove (trace r) /\
       progress_file r = Some (py "B")).
Proof.
  assert (H1 : all_set script_config = true) by reflexivity.
  split; [exact H1|].
  eexists; split; [reflexivity|]; split; [reflexivity|].
  exact (@empty_listing_ends_run net_empty script_config utf8 1 (Some (py "B")) _
           H1 eq_refl eq_refl).
Defined.

(** ** Resuming *)

Lemma main_from_run net cfg enc video_ids f :
  video_ids <> [] ->
  main_from net cfg enc video_ids f =
  match returned (resume video_ids f) with
  | Ret videos_to_add =>
      after (trace (resume video_ids f))
        (transfer net cfg enc videos_to_add (progress_file (resume video_ids f)))
  | Exc e =>
      mkRun (Exc e) (progress_file (resume video_ids f))
        (trace (resume video_ids f))
  end.
Proof.
  destruct video_ids as [|v video_ids]; [congruence|]; intros _.
  unfold main_from; rewrite bind_eq; reflexivity.
Qed.

(** C2, as it is stated, fails: the sequence [" B"; "C"; "D"], which the
    Lister can return, has no repetition; the progress file holds [" B"],
    its first identifier, as the script itself writes it after inserting
    that video; the checkpoint is read without the space, is not found,
    and the work list is the whole sequence, not the two videos after the
    first. *)
Lemma padded_checkpoint_is_not_found :
  listed padded /\ NoDup padded /\
  nth_error padded (1 - 1) = Some (JStr (py " B")) /\
  progress_file (save_last_video_id utf8 (JStr (py " B")) None)
    = Some (py " B") /\
  returned (resume padded (Some (py " B"))) = Ret padded /\
  returned (resume padded (Some (py " B"))) <> Ret (skipn 1 padded).
Proof.
  split.
  { exists (net_one_page padded), 1, (py "PL"), (py "KEY"), None.
    eexists; split; reflexivity. }
  split.
  { repeat (constructor; [simpl; intuition discriminate|]); constructor. }
  repeat split; discriminate.
Qed.

(** C2, amended.  [video_ids] is a sequence that the Lister has returned,
    not empty and without repetition; the progress file holds the text of
    its [K]-th identifier, which has no whitespace at its ends and no
    carriage return: the work list is the sequence after position [K], of
    length [N - K], and it is that list which [main] transfers. *)
Theorem resume_after_checkpoint net cfg enc (video_ids : list json) (K : nat)
    (id : pystr) :
  listed video_ids ->
  video_ids <> [] ->
  NoDup video_ids ->
  1 <= K <= length video_ids ->
  nth_error video_ids (K - 1) = Some (JStr id) ->
  trimmed id -> ~ In CR id ->
  returned (resume video_ids (Some id)) = Ret (skipn K video_ids) /\
  length (skipn K video_ids) = length video_ids - K /\
  main_from net cfg enc video_ids (Some id) =
    after [EPrint (MsgResuming id)]
      (transfer net cfg enc (skipn K video_ids) (Some id)).
Proof.
  intros L NE ND HK N Tr Cr.
  assert (T : id <> []).
  { pose proof (listed_truthy L) as F.
    rewrite Forall_forall in F.
    specialize (F (JStr id) (nth_error_In _ _ N)).
    intros ->; discriminate. }
  assert (R : resume video_ids (Some id) =
              mkRun (Ret (skipn K video_ids)) (Some id)
                [EPrint (MsgResuming id)]).
  { rewrite (@resume_present video_ids (Some id) id
               (@stored_identifier_is_read id Tr Cr) T).
    rewrite (@py_index_nodup id video_ids (K - 1) ND N).
    replace (K - 1 + 1) with K by lia; reflexivity. }
  split; [rewrite R; reflexivity|].
  split; [apply length_skipn|].
  rewrite (@main_from_run net cfg enc video_ids (Some id) NE), R; reflexivity.
Qed.

(** C3, as it is stated, fails, in three ways.  The progress file holds a
    space, which is not in the sequence [A; B; C; D]: the run transfers the
    whole sequence and reports nothing.  It holds ["B\n"], which is not in
    the sequence either: the checkpoint is read as ["B"], and the work list
    is [C; D], not the whole sequence.  The source sequence is empty and
    the progress file holds ["Z"]: the run ends with the line that there
    are no videos, and reports nothing about the checkpoint. *)
Lemma stale_checkpoint_is_not_reported :
  (~ In (JStr (py " ")) (map JStr abcd) /\
   main_from net_two_pages script_config utf8 (map JStr abcd)
     (Some (py " ")) =
   transfer net_two_pages script_config utf8 (map JStr abcd)
     (Some (py " ")) /\
   ~ In (EPrint MsgInvalidProgress)
       (trace (main_from net_two_pages script_config utf8 (map JStr abcd)
                 (Some (py " "))))) /\
  (~ In (JStr b_newline) (map JStr abcd) /\
   returned (resume (map JStr abcd) (Some b_newline))
     = Ret [JStr (py "C"); JStr (py "D")] /\
   returned (resume (map JStr abcd) (Some b_newline))
     <> Ret (map JStr abcd)) /\
  (~ In (JStr (py "Z")) [] /\
   main_from net_two_pages script_config utf8 [] (Some (py "Z")) =
   mkRun (Ret tt) (Some (py "Z")) [EPrint MsgNoVideos]).
Proof.
  split; [|split].
  - split; [simpl; intuition discriminate|].
    split; [reflexivity|].
    vm_compute; intuition discriminate.
  - split; [simpl; intuition discriminate|].
    split; [reflexivity | discriminate].
  - split; [simpl; tauto | reflexivity].
Qed.

(** C3, amended.  The source sequence is not empty, and the text of the
    progress file, as [get_last_video_id] reads it (universal newlines,
    whitespace at the ends taken off), is not empty and occurs nowhere in
    the sequence: no exception is raised, the work list is the whole
    sequence, the progress file is kept as it is, the anomaly is printed,
    and [main] goes on to transfer the whole sequence.  A progress file
    that holds whitespace only (or nothing) is no checkpoint: [main]
    transfers the whole sequence and prints nothing about it.  With an
    empty source sequence [main] returns before the checkpoint is read. *)
Theorem stale_checkpoint_restarts net cfg enc (video_ids : list json)
    (c : pystr) :
  (video_ids <> [] ->
   strip (universal_newlines c) <> [] ->
   ~ In (JStr (strip (universal_newlines c))) video_ids ->
   resume video_ids (Some c) =
     mkRun (Ret video_ids) (Some c)
       [EPrint (MsgResuming (strip (universal_newlines c)));
        EPrint MsgInvalidProgress] /\
   main_from net cfg enc video_ids (Some c) =
     after [EPrint (MsgResuming (strip (universal_newlines c)));
            EPrint MsgInvalidProgress]
       (transfer net cfg enc video_ids (Some c))) /\
  (video_ids <> [] -> blank c ->
   resume video_ids (Some c) = mkRun (Ret video_ids) (Some c) [] /\
   main_from net cfg enc video_ids (Some c) =
     transfer net cfg enc video_ids (Some c)) /\
  main_from net cfg enc [] (Some c) =
    mkRun (Ret tt) (Some c) [EPrint MsgNoVideos].
Proof.
  split; [|split; [|reflexivity]].
  - intros NE T N.
    assert (R : resume video_ids (Some c) =
                mkRun (Ret video_ids) (Some c)
                  [EPrint (MsgResuming (strip (universal_newlines c)));
                   EPrint MsgInvalidProgress]).
    { rewrite (@resume_present video_ids (Some c)
                 (strip (universal_newlines c)) eq_refl T),
        (@py_index_missing (strip (universal_newlines c)) video_ids N).
      reflexivity. }
    split; [exact R|].
    rewrite (@main_from_run net cfg enc video_ids (Some c) NE), R;
      reflexivity.
  - intros NE B.
    assert (R : resume video_ids (Some c) = mkRun (Ret video_ids) (Some c) []).
    { apply resume_absent; right; simpl.
      rewrite (@strip_blank (universal_newlines c)
                 (@universal_newlines_blank c B)); reflexivity. }
    split; [exact R|].
    rewrite (@main_from_run net cfg enc video_ids (Some c) NE), R.
    cbn [returned progress_file trace]; apply after_nil.
Qed.

(** [A; B; C; D] with ["B"] in the progress file: the work list is
    [C; D]. *)
Lemma resume_after_checkpoint_witness :
  listed (map JStr abcd) /\
  map JStr abcd <> [] /\
  NoDup (map JStr abcd) /\
  1 <= 2 <= length (map JStr abcd) /\
  nth_error (map JStr abcd) (2 - 1) = Some (JStr (py "B")) /\
  trimmed (py "B") /\ ~ In CR (py "B") /\
  returned (resume (map JStr abcd) (Some (py "B")))
    = Ret (skipn 2 (map JStr abcd)) /\
  length (skipn 2 (map JStr abcd)) = length (map JStr abcd) - 2 /\
  main_from net_two_pages script_config utf8 (map JStr abcd) (Some (py "B")) =
    after [EPrint (MsgResuming (py "B"))]
      (transfer net_two_pages script_config utf8 (skipn 2 (map JStr abcd))
         (Some (py "B"))).
Proof.
  assert (H1 : listed (map JStr abcd)).
  { exists net_two_pages, 2, (py "PL"), (py "KEY"), None.
    eexists; split; reflexivity. }
  assert (H2 : map JStr abcd <> []) by discriminate.
  assert (H3 : NoDup (map JStr abcd)).
  { repeat (constructor; [simpl; intuition discriminate|]); constructor. }
  assert (H4 : 1 <= 2 <= length (map JStr abcd)) by (simpl; lia).
  assert (H5 : nth_error (map JStr abcd) (2 - 1) = Some (JStr (py "B")))
    by reflexivity.
  assert (H6 : trimmed (py "B")) by (split; reflexivity).
  assert (H7 : ~ In CR (py "B")) by (vm_compute; intuition discriminate).
  split; [exact H1 | split; [exact H2 | split; [exact H3 | split;
    [exact H4 | split; [exact H5 | split; [exact H6 | split;
    [exact H7 |]]]]]]].
  exact (@resume_after_checkpoint net_two_pages script_config utf8
           (map JStr abcd) 2 (py "B") H1 H2 H3 H4 H5 H6 H7).
Defined.

(** [A; B; C; D] with ["Z"] and a line end in the progress file: the work
    list is the whole sequence, and the run says so. *)
Lemma stale_checkpoint_restarts_witness :
  map JStr abcd <> [] /\
  strip (universal_newlines (py "Z" ++ [LF])) <> [] /\
  ~ In (JStr (strip (universal_newlines (py "Z" ++ [LF])))) (map JStr abcd) /\
  resume (map JStr abcd) (Some (py "Z" ++ [LF])) =
    mkRun (Ret (map JStr abcd)) (Some (py "Z" ++ [LF]))
      [EPrint (MsgResuming (strip (universal_newlines (py "Z" ++ [LF]))));
       EPrint MsgInvalidProgress] /\
  main_from net_two_pages script_config utf8 (map JStr abcd)
    (Some (py "Z" ++ [LF])) =
    after [EPrint (MsgResuming (strip (universal_newlines (py "Z" ++ [LF]))));
           EPrint MsgInvalidProgress]
      (transfer net_two_pages script_config utf8 (map JStr abcd)
         (Some (py "Z" ++ [LF]))).
Proof.
  assert (H1 : map JStr abcd <> []) by discriminate.
  assert (H2 : strip (universal_newlines (py "Z" ++ [LF])) <> [])
    by discriminate.
  assert (H3 : ~ In (JStr (strip (universal_newlines (py "Z" ++ [LF]))))
                 (map JStr abcd))
    by (simpl; intuition discriminate).
  split; [exact H1 | split; [exact H2 | split; [exact H3 |]]].
  exact (proj1 (@stale_checkpoint_restarts net_two_pages script_config utf8
                  (map JStr abcd) (py "Z" ++ [LF])) H1 H2 H3).
Defined.

(** ** The two scenarios of the specification *)

(** The source holds [A; B; C; D], there is no progress file, [A] and [B]
    are inserted and the insertion of [C] fails: the progress file holds
    ["B"], the summary says 2 of 4, and [D] is not posted. *)
Example scenario_interrupted :
  exists r,
    main net_third_fails script_config utf8 2 None = Done r /\
    returned r = Ret tt /\
    progress_file r = Some (py "B") /\
    posts (trace r) = [JStr (py "A"); JStr (py "B"); JStr (py "C")] /\
    In (EPrint (MsgSummary 2 4)) (trace r) /\
    ~ In ERemove (trace r).
Proof.
  eexists; split; [reflexivity|].
  split; [reflexivity|]; split; [reflexivity|]; split; [reflexivity|].
  split; vm_compute; intuition discriminate.
Qed.

(** The same source with ["B"] in the progress file, [C] and [D] are
    inserted: nothing else is posted, the summary says 2 of 2, and the
    progress file is removed. *)
Example scenario_resumed :
  exists r,
    main net_two_pages script_config utf8 2 (Some (py "B")) = Done r /\
    returned r = Ret tt /\
    progress_file r = None /\
    posts (trace r) = [JStr (py "C"); JStr (py "D")] /\
    In (EPrint (MsgSummary 2 2)) (trace r) /\
    In ERemove (trace r).
Proof.
  eexists; split; [reflexivity|].
  split; [reflexivity|]; split; [reflexivity|]; split; [reflexivity|].
  split; vm_compute; intuition discriminate.
Qed.

(* ================================================================== *)
(** * Further properties of the Lister *)
(* ================================================================== *)

(** The entries of a page are gone through in order; of each one the video
    id is looked up, and the ones that are true values are appended to the
    videos collected so far. *)
Lemma append_videos_filter (items vs : list json) :
  Forall2 (fun item v => video_id_of item = Ret v) items vs ->
  forall videos,
    append_videos items videos = Ret (videos ++ filter truthy vs).
Proof.
  induction 1 as [|item v items vs E F IH]; intros videos; simpl.
  - rewrite app_nil_r; reflexivity.
  - rewrite E, IH; destruct (truthy v); simpl;
      [rewrite <- app_assoc|]; reflexivity.
Qed.

(** X1.  Of a page whose entries all yield a video id (no exception), the
    Lister keeps the video ids that are true values, in the order of the
    page, after the videos of the pages before. *)
Theorem page_keeps_true_video_ids (kvs : list (pystr * json))
    (items vs videos : list json) :
  assoc (py "items") kvs = Some (JArr items) ->
  Forall2 (fun item v => video_id_of item = Ret v) items vs ->
  page_videos (JObj kvs) videos = Ret (videos ++ filter truthy vs).
Proof.
  intros A F; unfold page_videos; simpl; rewrite A; simpl.
  apply append_videos_filter, F.
Qed.

(** Two listed videos around an entry without id and one whose id is the
    empty string. *)
Lemma page_keeps_true_video_ids_witness :
  assoc (py "items")
    [(py "items", JArr [item_of (JStr (py "A")); entry_without_resource;
                        item_of (JStr []); item_of (JStr (py "B"))])]
  = Some (JArr [item_of (JStr (py "A")); entry_without_resource;
                item_of (JStr []); item_of (JStr (py "B"))]) /\
  Forall2 (fun item v => video_id_of item = Ret v)
    [item_of (JStr (py "A")); entry_without_resource;
     item_of (JStr []); item_of (JStr (py "B"))]
    [JStr (py "A"); JNull; JStr []; JStr (py "B")] /\
  page_videos
    (JObj [(py "items", JArr [item_of (JStr (py "A")); entry_without_resource;
                              item_of (JStr []); item_of (JStr (py "B"))])])
    [JStr (py "Z")]
  = Ret ([JStr (py "Z")] ++
         filter truthy [JStr (py "A"); JNull; JStr []; JStr (py "B")]).
Proof.
  assert (H1 : assoc (py "items")
    [(py "items", JArr [item_of (JStr (py "A")); entry_without_resource;
                        item_of (JStr []); item_of (JStr (py "B"))])]
  = Some (JArr [item_of (JStr (py "A")); entry_without_resource;
                item_of (JStr []); item_of (JStr (py "B"))]))
    by reflexivity.
  assert (H2 : Forall2 (fun item v => video_id_of item = Ret v)
    [item_of (JStr (py "A")); entry_without_resource;
     item_of (JStr []); item_of (JStr (py "B"))]
    [JStr (py "A"); JNull; JStr []; JStr (py "B")])
    by (repeat constructor).
  split; [exact H1 | split; [exact H2 |]].
  exact (@page_keeps_true_video_ids _ _ _ [JStr (py "Z")] H1 H2).
Defined.

(** X2.  An entry that is an object without ["snippet"], or whose snippet
    is an object without ["resourceId"], or whose resource is an object
    without ["videoId"], adds no video: the defaults of the three [.get]
    calls make its video id [None]. *)
Theorem entry_without_id_is_skipped (entry snippet resource :
    list (pystr * json)) (rest videos : list json) :
  (assoc (py "snippet") entry = None ->
   append_videos (JObj entry :: rest) videos = append_videos rest videos) /\
  (assoc (py "snippet") entry = Some (JObj snippet) ->
   assoc (py "resourceId") snippet = None ->
   append_videos (JObj entry :: rest) videos = append_videos rest videos) /\
  (assoc (py "snippet") entry = Some (JObj snippet) ->
   assoc (py "resourceId") snippet = Some (JObj resource) ->
   assoc (py "videoId") resource = None ->
   append_videos (JObj entry :: rest) videos = append_videos rest videos).
Proof.
  repeat split.
  - intros A; simpl; unfold video_id_of; simpl; rewrite A; reflexivity.
  - intros A B; simpl; unfold video_id_of; simpl; rewrite A; simpl.
    rewrite B; reflexivity.
  - intros A B C; simpl; unfold video_id_of; simpl; rewrite A; simpl.
    rewrite B; simpl; rewrite C; reflexivity.
Qed.

(** An entry of a channel, without video id, before the video [A]. *)
Lemma entry_without_id_is_skipped_witness :
  assoc (py "snippet")
    [(py "snippet",
      JObj [(py "resourceId",
             JObj [(py "kind", JStr (py "youtube#channel"))])])]
  = Some (JObj [(py "resourceId",
                 JObj [(py "kind", JStr (py "youtube#channel"))])]) /\
  assoc (py "resourceId")
    [(py "resourceId", JObj [(py "kind", JStr (py "youtube#channel"))])]
  = Some (JObj [(py "kind", JStr (py "youtube#channel"))]) /\
  assoc (py "videoId") [(py "kind", JStr (py "youtube#channel"))] = None /\
  append_videos (entry_without_video_id :: [item_of (JStr (py "A"))]) []
  = append_videos [item_of (JStr (py "A"))] [].
Proof.
  split; [reflexivity | split; [reflexivity | split; [reflexivity |]]].
  exact (proj2 (proj2 (@entry_without_id_is_skipped
           [(py "snippet",
             JObj [(py "resourceId",
                    JObj [(py "kind", JStr (py "youtube#channel"))])])]
           [(py "resourceId", JObj [(py "kind", JStr (py "youtube#channel"))])]
           [(py "kind", JStr (py "youtube#channel"))]
           [item_of (JStr (py "A"))] []))
         eq_refl eq_refl eq_refl).
Defined.

Lemma py_get_raises (v : json) (k : pystr) (default : json) (e : pyexn) :
  py_get v k default = Exc e -> e = AttributeError.
Proof. destruct v; simpl; congruence. Qed.

(** The lookup of the video id raises nothing but [AttributeError]. *)
Lemma video_id_of_raises (item : json) (e : pyexn) :
  video_id_of item = Exc e -> e = AttributeError.
Proof.
  unfold video_id_of.
  destruct (py_get item (py "snippet") (JObj [])) as [snippet|e1] eqn:E1;
    simpl; [|intros [= <-]; eapply py_get_raises; exact E1].
  destruct (py_get snippet (py "resourceId") (JObj [])) as [resource|e2]
    eqn:E2; simpl; [|intros [= <-]; eapply py_get_raises; exact E2].
  apply py_get_raises.
Qed.

Lemma append_videos_raises (items : list json) :
  Exists (fun item => exists e, video_id_of item = Exc e) items ->
  forall videos, append_videos items videos = Exc AttributeError.
Proof.
  induction 1 as [item items [e E] | item items X IH]; intros videos; simpl.
  - rewrite E, (video_id_of_raises _ E); reflexivity.
  - destruct (video_id_of item) as [v|e] eqn:E; [apply IH|].
    rewrite (video_id_of_raises _ E); reflexivity.
Qed.

(** A page that cannot be gone through ends the run of the loop with the
    exception. *)
Lemma lister_loop_page_raises net playlist_id api_key fuel :
  forall n token videos f page_token data e,
    In (EGet page_token (GetData data))
       (so_far (lister_loop net playlist_id api_key fuel n token videos f)) ->
    resolvable data = Exc e ->
    exists r,
      lister_loop net playlist_id api_key fuel n token videos f = Done r /\
      returned r = Exc e /\ progress_file r = f.
Proof.
  induction fuel as [|fuel IH]; intros n token videos f page_token data e;
    simpl; [intros []|].
  rewrite so_far_after; simpl.
  destruct (net_get net n playlist_id api_key token) as [| | |data0] eqn:G;
    simpl; try (intros [D | [D | []]]; discriminate).
  rewrite page_videos_acc.
  intros [D | Hin] R.
  - injection D as _ <-; rewrite R; simpl.
    eexists; repeat split.
  - destruct (resolvable data0) as [vs|e0]; simpl in *; [|destruct Hin].
    destruct (py_get data0 (py "nextPageToken") JNull) as [next|e0];
      simpl in *; [|destruct Hin].
    destruct (truthy next); simpl in *.
    + destruct (IH (S n) next (videos ++ vs) f page_token data e Hin R)
        as (r & -> & R1 & R2).
      eexists; repeat split; assumption.
    + destruct Hin as [D | []]; discriminate.
Qed.

(** X3.  An entry whose ["snippet"] is there and is not an object (it is
    [null], say) is not skipped: [.get] on it raises [AttributeError], which
    is no [RequestException] and leaves the Lister; [main], when it is the
    caller, stops with it before anything is posted, the progress file
    being as it was. *)
Theorem malformed_entry_raises net cfg enc fuel f page_token
    (page : list (pystr * json)) (items : list json)
    (entry : list (pystr * json)) (snippet : json) :
  In (EGet page_token (GetData (JObj page)))
     (so_far (get_all_videos_from_playlist net fuel (SOURCE_PLAYLIST_ID cfg)
                (API_KEY cfg) f)) ->
  assoc (py "items") page = Some (JArr items) ->
  In (JObj entry) items ->
  assoc (py "snippet") entry = Some snippet ->
  (forall members, snippet <> JObj members) ->
  (exists l,
     get_all_videos_from_playlist net fuel (SOURCE_PLAYLIST_ID cfg)
       (API_KEY cfg) f = Done l /\
     returned l = Exc AttributeError) /\
  (all_set cfg = true ->
   exists r,
     main net cfg enc fuel f = Done r /\
     returned r = Exc AttributeError /\
     posts (trace r) = [] /\
     progress_file r = f).
Proof.
  intros Hin A I S NO.
  assert (R : resolvable (JObj page) = Exc AttributeError).
  { unfold resolvable, page_videos; simpl; rewrite A; simpl.
    apply append_videos_raises, Exists_exists.
    exists (JObj entry); split; [exact I|].
    exists AttributeError; unfold video_id_of; simpl; rewrite S; simpl.
    destruct snippet; try reflexivity.
    exfalso; eapply NO; reflexivity. }
  assert (L : exists l,
     get_all_videos_from_playlist net fuel (SOURCE_PLAYLIST_ID cfg)
       (API_KEY cfg) f = Done l /\
     returned l = Exc AttributeError /\ progress_file l = f).
  { revert Hin; unfold get_all_videos_from_playlist; rewrite so_far_after.
    intros [D | Hin]; [discriminate|].
    destruct (@lister_loop_page_raises net (SOURCE_PLAYLIST_ID cfg)
                (API_KEY cfg) fuel 0 JNull [] f page_token (JObj page)
                AttributeError Hin R) as (r & -> & R1 & R2).
    eexists; repeat split; assumption. }
  destruct L as (l & L & R1 & R2); split.
  - exists l; split; assumption.
  - intros C; unfold main; rewrite C, L, R1.
    eexists; split; [reflexivity|]; simpl; repeat split; [|exact R2].
    pose proof (lister_posts net fuel (SOURCE_PLAYLIST_ID cfg) (API_KEY cfg) f)
      as P; rewrite L in P; exact P.
Qed.

(** The page of [net_null_snippet]: the entry with ["snippet": null] stops
    the listing, and the run, with [AttributeError]. *)
Lemma malformed_entry_raises_witness :
  In (EGet JNull (GetData (JObj page_null_snippet)))
     (so_far (get_all_videos_from_playlist net_null_snippet 1
                (SOURCE_PLAYLIST_ID script_config) (API_KEY script_config)
                None)) /\
  assoc (py "items") page_null_snippet
  = Some (JArr [item_of (JStr (py "A")); JObj [(py "snippet", JNull)];
                item_of (JStr (py "B"))]) /\
  In (JObj [(py "snippet", JNull)])
     [item_of (JStr (py "A")); JObj [(py "snippet", JNull)];
      item_of (JStr (py "B"))] /\
  assoc (py "snippet") [(py "snippet", JNull)] = Some JNull /\
  (forall members, JNull <> JObj members) /\
  (exists l,
     get_all_videos_from_playlist net_null_snippet 1
       (SOURCE_PLAYLIST_ID script_config) (API_KEY script_config) None
     = Done l /\
     returned l = Exc AttributeError) /\
  (all_set script_config = true ->
   exists r,
     main net_null_snippet script_config utf8 1 None = Done r /\
     returned r = Exc AttributeError /\
     posts (trace r) = [] /\
     progress_file r = None).
Proof.
  assert (H1 : In (EGet JNull (GetData (JObj page_null_snippet)))
     (so_far (get_all_videos_from_playlist net_null_snippet 1
                (SOURCE_PLAYLIST_ID script_config) (API_KEY script_config)
                None))) by (right; left; reflexivity).
  assert (H2 : assoc (py "items") page_null_snippet
  = Some (JArr [item_of (JStr (py "A")); JObj [(py "snippet", JNull)];
                item_of (JStr (py "B"))])) by reflexivity.
  assert (H3 : In (JObj [(py "snippet", JNull)])
     [item_of (JStr (py "A")); JObj [(py "snippet", JNull)];
      item_of (JStr (py "B"))]) by (right; left; reflexivity).
  assert (H4 : assoc (py "snippet") [(py "snippet", JNull)] = Some JNull)
    by reflexivity.
  assert (H5 : forall members, JNull <> JObj members) by discriminate.
  split; [exact H1 | split; [exact H2 | split; [exact H3 | split;
    [exact H4 | split; [exact H5 |]]]]].
  exact (@malformed_entry_raises net_null_snippet script_config utf8 1 None JNull
           page_null_snippet _ _ JNull H1 H2 H3 H4 H5).
Defined.

(** X4.  Whatever the endpoint answers, a list that the Lister returns
    holds true values only: never [None], never the empty string. *)
Theorem lister_returns_true_ids net fuel playlist_id api_key f r video_ids :
  get_all_videos_from_playlist net fuel playlist_id api_key f = Done r ->
  returned r = Ret video_ids ->
  Forall (fun v => truthy v = true) video_ids /\
  ~ In JNull video_ids /\ ~ In (JStr []) video_ids.
Proof.
  intros L R.
  assert (F : Forall (fun v => truthy v = true) video_ids).
  { apply listed_truthy.
    exists net, fuel, playlist_id, api_key, f, r; split; assumption. }
  split; [exact F|]; rewrite Forall_forall in F.
  split; intros Hin; apply F in Hin; discriminate.
Qed.

(** The two pages of [net_two_pages], one of which has an entry with a
    [null] video id. *)
Lemma lister_returns_true_ids_witness :
  (exists r,
     get_all_videos_from_playlist net_two_pages 2 (py "PL") (py "KEY") None
     = Done r /\
     returned r = Ret (map JStr abcd)) /\
  Forall (fun v => truthy v = true) (map JStr abcd) /\
  ~ In JNull (map JStr abcd) /\ ~ In (JStr []) (map JStr abcd).
Proof.
  split; [eexists; split; reflexivity|].
  exact (@lister_returns_true_ids net_two_pages 2 (py "PL") (py "KEY") None
           _ (map JStr abcd) eq_refl eq_refl).
Defined.

Lemma lister_loop_events net playlist_id api_key fuel :
  forall n token videos f,
    Forall is_listing_event
      (so_far (lister_loop net playlist_id api_key fuel n token videos f)).
Proof.
  induction fuel as [|fuel IH]; intros n token videos f; [constructor|].
  simpl; rewrite so_far_after; simpl.
  constructor; [exact I|].
  destruct (net_get net n playlist_id api_key token) as [| | |data];
    try (repeat constructor).
  destruct (page_videos data videos) as [videos'|e]; [|constructor].
  destruct (py_get data (py "nextPageToken") JNull) as [next|e];
    [|constructor].
  destruct (truthy next); [apply IH | repeat constructor].
Qed.

(** X5.  The Lister only prints and sends listing requests: it posts
    nothing, does not pause, and neither writes nor removes the progress
    file, which is the same after it as before. *)
Theorem lister_only_lists net fuel playlist_id api_key f :
  Forall is_listing_event
    (so_far (get_all_videos_from_playlist net fuel playlist_id api_key f)) /\
  (forall r,
     get_all_videos_from_playlist net fuel playlist_id api_key f = Done r ->
     progress_file r = f).
Proof.
  split.
  - unfold get_all_videos_from_playlist; rewrite so_far_after; simpl.
    constructor; [exact I | apply lister_loop_events].
  - intros r; apply lister_file.
Qed.

Lemma lister_loop_follows net playlist_id api_key fuel :
  forall n token videos f,
    follows net playlist_id api_key n token
      (gets (so_far (lister_loop net playlist_id api_key fuel n token
                       videos f))).
Proof.
  induction fuel as [|fuel IH]; intros n token videos f; [exact I|].
  simpl; rewrite so_far_after; simpl.
  split; [reflexivity|]; split; [reflexivity|].
  destruct (net_get net n playlist_id api_key token) as [| | |data] eqn:G;
    try (left; reflexivity).
  destruct (page_videos data videos) as [videos'|e]; [|left; reflexivity].
  destruct (py_get data (py "nextPageToken") JNull) as [next|e] eqn:N;
    [|left; reflexivity].
  destruct (truthy next) eqn:T; [|left; reflexivity].
  right; exists data, next; repeat split; try assumption; apply IH.
Qed.

(** X6.  The listing requests of a run form one chain: the first carries
    no token, each request is made only after a page came back with a true
    continuation token and carries that token, and there is no request
    after a failure or after a page without token. *)
Theorem lister_follows_tokens net fuel playlist_id api_key f :
  follows net playlist_id api_key 0 JNull
    (gets (so_far (get_all_videos_from_playlist net fuel playlist_id api_key
                     f))).
Proof.
  unfold get_all_videos_from_playlist; rewrite so_far_after; simpl.
  apply lister_loop_follows.
Qed.

(** On [net_second_fails] with fuel for one request: the run is cut off
    after a request and a print; with fuel for two it is over. *)
Lemma lister_only_lists_witness :
  Forall is_listing_event
    (so_far (get_all_videos_from_playlist net_second_fails 2 (py "PL")
               (py "KEY") (Some (py "B")))) /\
  (exists r,
     get_all_videos_from_playlist net_second_fails 2 (py "PL") (py "KEY")
       (Some (py "B")) = Done r /\
     progress_file r = Some (py "B")).
Proof.
  destruct (@lister_only_lists net_second_fails 2 (py "PL") (py "KEY")
              (Some (py "B"))) as [H1 H2].
  split; [exact H1|].
  eexists; split; [reflexivity|].
  exact (H2 _ eq_refl).
Defined.

(* ================================================================== *)
(** * Further properties of the Inserter *)
(* ================================================================== *)

(** X7.  The Inserter returns [True] exactly when the request came back
    with a status for which [raise_for_status] does not raise; with any
    other answer it returns [False] or raises. *)
Theorem inserter_true_iff_accepted net n playlist_id access_token video_id f :
  returned (add_video_to_playlist net n playlist_id access_token video_id f)
  = Ret true <->
  net_post net n playlist_id access_token video_id = PostOk.
Proof. apply add_video_true. Qed.

Lemma inserter_true_iff_accepted_witness :
  net_post net_two_pages 0 (py "PL") (py "TOKEN") (JStr (py "A")) = PostOk /\
  returned (add_video_to_playlist net_two_pages 0 (py "PL") (py "TOKEN")
              (JStr (py "A")) None) = Ret true.
Proof.
  split; [reflexivity|].
  exact (proj2 (@inserter_true_iff_accepted net_two_pages 0 (py "PL")
                  (py "TOKEN") (JStr (py "A")) None) eq_refl).
Defined.

(** X8.  A call of the Inserter sends one insertion request, for the video
    it was given, whatever the answer (nothing is sent again); the rest of
    what it does is printing, and the progress file is not touched. *)
Theorem inserter_sends_one_request net n playlist_id access_token video_id f :
  exists msgs,
    trace (add_video_to_playlist net n playlist_id access_token video_id f)
    = EPost video_id (net_post net n playlist_id access_token video_id)
      :: map EPrint msgs /\
    posts (trace (add_video_to_playlist net n playlist_id access_token
                    video_id f)) = [video_id] /\
    progress_file (add_video_to_playlist net n playlist_id access_token
                     video_id f) = f.
Proof.
  destruct (add_video_run net n playlist_id access_token video_id)
    as (msgs & H).
  exists msgs; rewrite H; simpl; rewrite posts_prints; repeat split.
Qed.

(** X9.  On an HTTP error whose body is the documented error object (an
    ["error"] object with an ["errors"] list that starts with an object),
    the Inserter prints the message and the reason of the first error
    ([None] for a member that is missing) and returns [False]. *)
Theorem inserter_reports_documented_error net n playlist_id access_token
    video_id f (body error first : list (pystr * json)) (more : list json) :
  net_post net n playlist_id access_token video_id
    = PostHttpError (Some (JObj body)) ->
  assoc (py "error") body = Some (JObj error) ->
  assoc (py "errors") error = Some (JArr (JObj first :: more)) ->
  add_video_to_playlist net n playlist_id access_token video_id f =
  mkRun (Ret false) f
    [EPost video_id (PostHttpError (Some (JObj body)));
     EPrint (MsgFailedToAdd video_id);
     EPrint (MsgApiErrorMessage (get_or_null (py "message") error));
     EPrint (MsgApiErrorReason (get_or_null (py "reason") first))].
Proof.
  intros O E Es; unfold add_video_to_playlist; rewrite O.
  unfold report_api_error, bind, lift, print, emit, ret, after, get_or_null;
    simpl.
  rewrite E; simpl; rewrite Es; reflexivity.
Qed.

(** The quota error of the API. *)
Lemma inserter_reports_documented_error_witness :
  net_post (net_answering (PostHttpError (Some error_with_reason))) 0
    (py "PL") (py "TOKEN") (JStr (py "A"))
  = PostHttpError (Some error_with_reason) /\
  add_video_to_playlist (net_answering (PostHttpError (Some error_with_reason)))
    0 (py "PL") (py "TOKEN") (JStr (py "A")) None =
  mkRun (Ret false) None
    [EPost (JStr (py "A")) (PostHttpError (Some error_with_reason));
     EPrint (MsgFailedToAdd (JStr (py "A")));
     EPrint (MsgApiErrorMessage (JStr (py "Quota exceeded")));
     EPrint (MsgApiErrorReason (JStr (py "quotaExceeded")))].
Proof.
  split; [reflexivity|].
  exact (@inserter_reports_documented_error
           (net_answering (PostHttpError (Some error_with_reason))) 0
           (py "PL") (py "TOKEN") (JStr (py "A")) None _ _ _ _
           eq_refl eq_refl eq_refl).
Defined.

(** X10.  Without an error object to report, the Inserter returns [False]
    after one line or two: a request that failed otherwise than by its
    status, an HTTP error whose body is not JSON, an HTTP error whose body
    is an object without ["error"]. *)
Theorem inserter_fails_without_details net n playlist_id access_token
    video_id f (body : list (pystr * json)) :
  (net_post net n playlist_id access_token video_id = PostRequestException ->
   add_video_to_playlist net n playlist_id access_token video_id f =
   mkRun (Ret false) f
     [EPost video_id PostRequestException; EPrint MsgUnexpectedError]) /\
  (net_post net n playlist_id access_token video_id = PostHttpError None ->
   add_video_to_playlist net n playlist_id access_token video_id f =
   mkRun (Ret false) f
     [EPost video_id (PostHttpError None);
      EPrint (MsgFailedToAdd video_id); EPrint MsgCouldNotParse]) /\
  (net_post net n playlist_id access_token video_id
     = PostHttpError (Some (JObj body)) ->
   assoc (py "error") body = None ->
   add_video_to_playlist net n playlist_id access_token video_id f =
   mkRun (Ret false) f
     [EPost video_id (PostHttpError (Some (JObj body)));
      EPrint (MsgFailedToAdd video_id)]).
Proof.
  unfold add_video_to_playlist; repeat split.
  - intros ->; reflexivity.
  - intros ->; reflexivity.
  - intros -> E.
    unfold report_api_error, bind, lift, print, emit, ret, after; simpl.
    rewrite E; reflexivity.
Qed.

(** A gateway that answers with an HTML page. *)
Lemma inserter_fails_without_details_witness :
  net_post (net_answering (PostHttpError None)) 0 (py "PL") (py "TOKEN")
    (JStr (py "A")) = PostHttpError None /\
  add_video_to_playlist (net_answering (PostHttpError None)) 0 (py "PL")
    (py "TOKEN") (JStr (py "A")) (Some (py "B")) =
  mkRun (Ret false) (Some (py "B"))
    [EPost (JStr (py "A")) (PostHttpError None);
     EPrint (MsgFailedToAdd (JStr (py "A"))); EPrint MsgCouldNotParse].
Proof.
  split; [reflexivity|].
  exact (proj1 (proj2 (@inserter_fails_without_details
           (net_answering (PostHttpError None)) 0 (py "PL") (py "TOKEN")
           (JStr (py "A")) (Some (py "B")) [])) eq_refl).
Defined.

(** X11.  The subscript [[0]] and the [.get('reason')] after it are not
    guarded: an ["errors"] list that is empty raises [IndexError], one that
    starts with something else than an object raises [AttributeError]; the
    message has been printed by then. *)
Theorem inserter_raises_on_unusable_errors net n playlist_id access_token
    video_id f (body error : list (pystr * json)) (first : json)
    (more : list json) :
  net_post net n playlist_id access_token video_id
    = PostHttpError (Some (JObj body)) ->
  assoc (py "error") body = Some (JObj error) ->
  (assoc (py "errors") error = Some (JArr []) ->
   add_video_to_playlist net n playlist_id access_token video_id f =
   mkRun (Exc IndexError) f
     [EPost video_id (PostHttpError (Some (JObj body)));
      EPrint (MsgFailedToAdd video_id);
      EPrint (MsgApiErrorMessage (get_or_null (py "message") error))]) /\
  (assoc (py "errors") error = Some (JArr (first :: more)) ->
   (forall members, first <> JObj members) ->
   add_video_to_playlist net n playlist_id access_token video_id f =
   mkRun (Exc AttributeError) f
     [EPost video_id (PostHttpError (Some (JObj body)));
      EPrint (MsgFailedToAdd video_id);
      EPrint (MsgApiErrorMessage (get_or_null (py "message") error))]).
Proof.
  intros O E; unfold add_video_to_playlist; rewrite O.
  unfold report_api_error, bind, lift, print, emit, ret, after, get_or_null;
    simpl.
  rewrite E; simpl; split.
  - intros ->; reflexivity.
  - intros -> NO; simpl.
    destruct first; try reflexivity.
    exfalso; eapply NO; reflexivity.
Qed.

(** An error object whose list of errors is empty. *)
Lemma inserter_raises_on_unusable_errors_witness :
  net_post
    (net_answering
       (PostHttpError
          (Some (JObj [(py "error", JObj [(py "errors", JArr [])])]))))
    0 (py "PL") (py "TOKEN") (JStr (py "A"))
  = PostHttpError (Some (JObj [(py "error", JObj [(py "errors", JArr [])])]))
  /\
  returned
    (add_video_to_playlist
       (net_answering
          (PostHttpError
             (Some (JObj [(py "error", JObj [(py "errors", JArr [])])]))))
       0 (py "PL") (py "TOKEN") (JStr (py "A")) None)
  = Exc IndexError.
Proof.
  split; [reflexivity|].
  exact (f_equal (@returned bool)
           (proj1 (@inserter_raises_on_unusable_errors
              (net_answering
                 (PostHttpError
                    (Some (JObj [(py "error",
                                  JObj [(py "errors", JArr [])])]))))
              0 (py "PL") (py "TOKEN") (JStr (py "A")) None
              [(py "error", JObj [(py "errors", JArr [])])]
              [(py "errors", JArr [])] JNull [] eq_refl eq_refl) eq_refl)).
Defined.

(** X12.  The test ["error" in error_data] is a test of Python on whatever
    the body decodes to: on [null], a number or a boolean it raises
    [TypeError]; on a string it looks for the substring and on a list for
    the element, and when it finds it the subscript ['error'] raises
    [TypeError]; when it does not, the Inserter returns [False]. *)
Theorem inserter_on_body_that_is_no_object net n playlist_id access_token
    video_id f (body : json) :
  net_post net n playlist_id access_token video_id
    = PostHttpError (Some body) ->
  (forall members, body <> JObj members) ->
  returned (add_video_to_playlist net n playlist_id access_token video_id f)
  = match body with
    | JStr s => if is_substring (py "error") s then Exc TypeError
                else Ret false
    | JArr xs => if existsb (eq_str (py "error")) xs then Exc TypeError
                 else Ret false
    | _ => Exc TypeError
    end.
Proof.
  intros O NO; unfold add_video_to_playlist; rewrite O.
  unfold report_api_error, bind, lift, print, emit, ret, after; simpl.
  destruct body as [|b|z|s|xs|kvs]; try reflexivity.
  - unfold py_contains; destruct (is_substring (py "error") s); reflexivity.
  - unfold py_contains; destruct (existsb (eq_str (py "error")) xs);
      reflexivity.
  - exfalso; eapply NO; reflexivity.
Qed.

(** A body that is the JSON string ["Internal error"]. *)
Lemma inserter_on_body_that_is_no_object_witness :
  net_post (net_answering (PostHttpError (Some (JStr (py "Internal error")))))
    0 (py "PL") (py "TOKEN") (JStr (py "A"))
  = PostHttpError (Some (JStr (py "Internal error"))) /\
  (forall members, JStr (py "Internal error") <> JObj members) /\
  returned
    (add_video_to_playlist
       (net_answering (PostHttpError (Some (JStr (py "Internal error")))))
       0 (py "PL") (py "TOKEN") (JStr (py "A")) None)
  = if is_substring (py "error") (py "Internal error") then Exc TypeError
    else Ret false.
Proof.
  assert (H : forall members, JStr (py "Internal error") <> JObj members)
    by discriminate.
  split; [reflexivity | split; [exact H |]].
  exact (@inserter_on_body_that_is_no_object
           (net_answering (PostHttpError (Some (JStr (py "Internal error")))))
           0 (py "PL") (py "TOKEN") (JStr (py "A")) None
           (JStr (py "Internal error")) eq_refl H).
Defined.

(* ================================================================== *)
(** * Further properties of the checkpoint store *)
(* ================================================================== *)

(** What [strip] returns is a piece of the string. *)
Lemma strip_in (s : pystr) : forall x, In x (strip s) -> In x s.
Proof.
  intros x Hin; unfold strip in Hin.
  destruct (lstrip_split s) as (p & E & _).
  destruct (rstrip_split (lstrip s)) as (q & E' & _).
  rewrite E, E'; apply in_or_app; right; apply in_or_app; left; exact Hin.
Qed.

(** X13.  Reading the checkpoint changes nothing and prints nothing; it
    returns [None] exactly when there is no progress file, and a string
    read from the file never has whitespace at its ends nor a carriage
    return in it. *)
Theorem checkpoint_read_is_trimmed (f : option pystr) :
  progress_file (get_last_video_id f) = f /\
  trace (get_last_video_id f) = [] /\
  (returned (get_last_video_id f) = Ret None <-> f = None) /\
  (forall s, returned (get_last_video_id f) = Ret (Some s) ->
             trimmed s /\ ~ In CR s).
Proof.
  rewrite get_last_video_id_run; simpl; repeat split.
  - destruct f; [discriminate | reflexivity].
  - intros ->; reflexivity.
  - destruct f as [c|]; simpl in H; [|discriminate].
    injection H as <-; apply strip_trimmed.
  - destruct f as [c|]; simpl in H; [|discriminate].
    injection H as <-; apply strip_trimmed.
  - destruct f as [c|]; simpl in H; [|discriminate].
    injection H as <-; intros Hin; apply strip_in in Hin.
    destruct (universal_newlines_in c CR Hin) as [D | [_ D]];
      [discriminate | congruence].
Qed.

(** A progress file saved by an editor under Windows. *)
Lemma checkpoint_read_is_trimmed_witness :
  returned (get_last_video_id (Some (py "dQw4w9WgXcQ" ++ [CR; LF])))
  = Ret (Some (py "dQw4w9WgXcQ")) /\
  trimmed (py "dQw4w9WgXcQ") /\ ~ In CR (py "dQw4w9WgXcQ").
Proof.
  split; [reflexivity|].
  exact (proj2 (proj2 (proj2 (checkpoint_read_is_trimmed
           (Some (py "dQw4w9WgXcQ" ++ [CR; LF])))))
         (py "dQw4w9WgXcQ") eq_refl).
Defined.

Lemma blank_rev (ws : pystr) : blank ws -> blank (rev ws).
Proof.
  unfold blank; rewrite !forallb_forall; intros B x Hin.
  apply B, in_rev, Hin.
Qed.

Lemma rstrip_blank (s ws : pystr) :
  is_space_char (last_char s) = false -> blank ws -> rstrip (s ++ ws) = s.
Proof.
  intros L B; unfold rstrip.
  rewrite rev_app_distr, (lstrip_blank _ (blank_rev B)).
  rewrite (lstrip_id _ L); apply rev_involutive.
Qed.

(** Universal newlines go through the whitespace before a character that
    is none without touching what follows. *)
Lemma universal_newlines_after_blank (ws : pystr) (c : N) (s : pystr) :
  blank ws -> isspace c = false ->
  exists ws', blank ws' /\
    universal_newlines (ws ++ c :: s) = ws' ++ universal_newlines (c :: s).
Proof.
  intros B C.
  assert (NL : (c =? LF)%N = false).
  { destruct (c =? LF)%N eqn:E; [|reflexivity].
    apply N.eqb_eq in E; subst c; discriminate. }
  revert B; induction ws as [| a | a b l IH1 IH2] using list_pair_ind;
    intros B.
  - exists []; split; reflexivity.
  - unfold blank in B; simpl in B; rewrite andb_true_r in B.
    change (universal_newlines ([a] ++ c :: s)) with
      (if (a =? CR)%N
       then LF :: (if (c =? LF)%N then universal_newlines s
                   else universal_newlines (c :: s))
       else a :: universal_newlines (c :: s)).
    rewrite NL; destruct (a =? CR)%N.
    + exists [LF]; split; reflexivity.
    + exists [a]; split; [unfold blank; simpl; rewrite B|]; reflexivity.
  - assert (Ba : isspace a = true /\ blank (b :: l) /\ blank l).
    { unfold blank in *; simpl in *; rewrite !andb_true_iff in B.
      rewrite andb_true_iff; tauto. }
    destruct Ba as (Ba & Bbl & Bl).
    change (universal_newlines ((a :: b :: l) ++ c :: s)) with
      (if (a =? CR)%N
       then LF :: (if (b =? LF)%N then universal_newlines (l ++ c :: s)
                   else universal_newlines ((b :: l) ++ c :: s))
       else a :: universal_newlines ((b :: l) ++ c :: s)).
    destruct (a =? CR)%N; [destruct (b =? LF)%N|].
    + destruct (IH1 Bl) as (ws' & B' & ->).
      exists (LF :: ws'); split; [exact B' | reflexivity].
    + destruct (IH2 Bbl) as (ws' & B' & ->).
      exists (LF :: ws'); split; [exact B' | reflexivity].
    + destruct (IH2 Bbl) as (ws' & B' & ->).
      exists (a :: ws'); split; [|reflexivity].
      unfold blank in *; simpl; rewrite Ba; exact B'.
Qed.

Lemma universal_newlines_app (id s : pystr) :
  ~ In CR id -> universal_newlines (id ++ s) = id ++ universal_newlines s.
Proof.
  induction id as [|c id IH]; [reflexivity|]; intros H.
  change (universal_newlines ((c :: id) ++ s)) with
    (if (c =? CR)%N
     then LF :: match id ++ s with
                | [] => []
                | d :: rest' =>
                    if (d =? LF)%N then universal_newlines rest'
                    else universal_newlines (id ++ s)
                end
     else c :: universal_newlines (id ++ s)).
  destruct (c =? CR)%N eqn:E.
  - apply N.eqb_eq in E; exfalso; apply H; left; exact E.
  - rewrite IH; [reflexivity | intros Hin; apply H; right; exact Hin].
Qed.

(** X14.  Whitespace around the identifier in the progress file (spaces,
    a final newline, a carriage return and newline) does not count: a file
    that holds a clean identifier between two runs of whitespace is read
    as that identifier. *)
Theorem checkpoint_read_ignores_surrounding_whitespace
    (ws1 id ws2 : pystr) :
  blank ws1 -> blank ws2 -> clean id ->
  returned (get_last_video_id (Some (ws1 ++ id ++ ws2))) = Ret (Some id).
Proof.
  intros B1 B2 (NE & [T1 T2] & NC).
  rewrite get_last_video_id_run; simpl; do 2 f_equal.
  destruct id as [|c id]; [congruence|].
  assert (C : isspace c = false) by exact T1.
  change ((c :: id) ++ ws2) with (c :: (id ++ ws2)).
  destruct (@universal_newlines_after_blank ws1 c (id ++ ws2) B1 C)
    as (ws' & B' & ->).
  change (c :: id ++ ws2) with ((c :: id) ++ ws2).
  rewrite (@universal_newlines_app (c :: id) ws2 NC).
  unfold strip; rewrite (@lstrip_blank ws' _ B').
  rewrite lstrip_id by exact T1.
  apply rstrip_blank; [exact T2 | apply universal_newlines_blank, B2].
Qed.

(** An identifier typed into the file with a space before it and a line
    end of Windows after it. *)
Lemma checkpoint_read_ignores_surrounding_whitespace_witness :
  blank [32%N] /\ blank [CR; LF] /\ clean (py "dQw4w9WgXcQ") /\
  returned (get_last_video_id
              (Some ([32%N] ++ py "dQw4w9WgXcQ" ++ [CR; LF])))
  = Ret (Some (py "dQw4w9WgXcQ")).
Proof.
  assert (H1 : blank [32%N]) by reflexivity.
  assert (H2 : blank [CR; LF]) by reflexivity.
  assert (H3 : clean (py "dQw4w9WgXcQ")).
  { split; [discriminate|]; split; [split; reflexivity|].
    vm_compute; intuition discriminate. }
  split; [exact H1 | split; [exact H2 | split; [exact H3 |]]].
  exact (@checkpoint_read_ignores_surrounding_whitespace [32%N]
           (py "dQw4w9WgXcQ") [CR; LF] H1 H2 H3).
Defined.

(* ================================================================== *)
(** * Further properties of the resume point *)
(* ================================================================== *)

(** [index] stops at the first element that is equal. *)
Lemma py_index_first (last : pystr) (before rest : list json) :
  ~ In (JStr last) before ->
  py_index last (before ++ JStr last :: rest) = Some (length before).
Proof.
  induction before as [|v before IH]; simpl; intros H.
  - rewrite pystr_eqb_refl; reflexivity.
  - destruct (eq_str last v) eqn:E.
    + apply eq_str_true in E; exfalso; apply H; left; exact E.
    + rewrite IH; [reflexivity | intros Hin; apply H; right; exact Hin].
Qed.

Lemma skipn_past (before : list json) (v : json) (rest : list json) :
  skipn (length before + 1) (before ++ v :: rest) = rest.
Proof.
  induction before as [|w before IH]; simpl; [reflexivity | exact IH].
Qed.

Lemma resume_first (video_ids : list json) (f : option pystr)
    (last : pystr) (before rest : list json) :
  returned (get_last_video_id f) = Ret (Some last) ->
  last <> [] ->
  video_ids = before ++ JStr last :: rest ->
  ~ In (JStr last) before ->
  resume video_ids f = mkRun (Ret rest) f [EPrint (MsgResuming last)].
Proof.
  intros G NE -> N.
  rewrite (@resume_present _ f last G NE),
    (@py_index_first last before rest N).
  rewrite skipn_past; reflexivity.
Qed.

Lemma resume_suffix (video_ids : list json) (f : option pystr) :
  exists skipped work,
    returned (resume video_ids f) = Ret work /\
    video_ids = skipped ++ work /\
    progress_file (resume video_ids f) = f /\
    posts (trace (resume video_ids f)) = [] /\
    gets (trace (resume video_ids f)) = [].
Proof.
  destruct (returned (get_last_video_id f)) as [[[|c last]|]|e] eqn:G.
  - exists [], video_ids; rewrite (@resume_absent video_ids f (or_intror G)).
    repeat split.
  - assert (NE : c :: last <> []) by discriminate.
    rewrite (@resume_present video_ids f (c :: last) G NE).
    destruct (py_index (c :: last) video_ids) as [i|].
    + exists (firstn (i + 1) video_ids), (skipn (i + 1) video_ids).
      simpl; repeat split; symmetry; apply firstn_skipn.
    + exists [], video_ids; repeat split.
  - exists [], video_ids; rewrite (@resume_absent video_ids f (or_introl G)).
    repeat split.
  - rewrite get_last_video_id_run in G; discriminate.
Qed.

(** X15.  Whatever the progress file holds, computing the work list raises
    nothing, sends nothing and leaves the progress file as it is, and the
    work list is an end piece of the listed sequence: the videos are only
    ever skipped from the front. *)
Theorem work_list_is_a_suffix (video_ids : list json) (f : option pystr) :
  exists skipped work,
    returned (resume video_ids f) = Ret work /\
    video_ids = skipped ++ work /\
    progress_file (resume video_ids f) = f /\
    posts (trace (resume video_ids f)) = [] /\
    gets (trace (resume video_ids f)) = [].
Proof. apply resume_suffix. Qed.

(** X16.  When the video of the checkpoint occurs more than once in the
    sequence, the transfer resumes after its first occurrence: the work
    list is what follows it, later occurrences included. *)
Theorem resume_after_first_occurrence (video_ids : list json)
    (f : option pystr) (last : pystr) (before rest : list json) :
  returned (get_last_video_id f) = Ret (Some last) ->
  last <> [] ->
  video_ids = before ++ JStr last :: rest ->
  ~ In (JStr last) before ->
  resume video_ids f = mkRun (Ret rest) f [EPrint (MsgResuming last)].
Proof.
  apply resume_first.
Qed.

(** [A; B; A; B] with ["B"] in the progress file: the second [A] and the
    second [B] are still to be added. *)
Lemma resume_after_first_occurrence_witness :
  returned (get_last_video_id (Some (py "B"))) = Ret (Some (py "B")) /\
  py "B" <> [] /\
  abab = [JStr (py "A")] ++ JStr (py "B") :: [JStr (py "A"); JStr (py "B")] /\
  ~ In (JStr (py "B")) [JStr (py "A")] /\
  resume abab (Some (py "B")) =
  mkRun (Ret [JStr (py "A"); JStr (py "B")]) (Some (py "B"))
    [EPrint (MsgResuming (py "B"))].
Proof.
  assert (H1 : returned (get_last_video_id (Some (py "B")))
               = Ret (Some (py "B"))) by reflexivity.
  assert (H2 : py "B" <> []) by discriminate.
  assert (H3 : abab = [JStr (py "A")] ++
                      JStr (py "B") :: [JStr (py "A"); JStr (py "B")])
    by reflexivity.
  assert (H4 : ~ In (JStr (py "B")) [JStr (py "A")])
    by (simpl; intuition discriminate).
  split; [exact H1 | split; [exact H2 | split; [exact H3 | split;
    [exact H4 |]]]].
  exact (@resume_after_first_occurrence abab (Some (py "B")) (py "B")
           [JStr (py "A")] [JStr (py "A"); JStr (py "B")] H1 H2 H3 H4).
Defined.

(** X17.  A progress file that is missing, empty or holds whitespace only
    is no checkpoint: the work list is the whole sequence and nothing is
    printed about resuming. *)
Theorem blank_progress_file_is_no_checkpoint (video_ids : list json)
    (f : option pystr) :
  f = None \/ (exists ws, f = Some ws /\ blank ws) ->
  resume video_ids f = mkRun (Ret video_ids) f [].
Proof.
  intros [-> | (ws & -> & B)]; [reflexivity|].
  apply resume_absent; right.
  rewrite get_last_video_id_run; simpl.
  rewrite (@strip_blank _ (@universal_newlines_blank ws B)); reflexivity.
Qed.

(** A progress file that holds a newline and nothing else. *)
Lemma blank_progress_file_is_no_checkpoint_witness :
  (Some [LF] = None \/ (exists ws, Some [LF] = Some ws /\ blank ws)) /\
  resume (map JStr abcd) (Some [LF]) =
  mkRun (Ret (map JStr abcd)) (Some [LF]) [].
Proof.
  assert (H : Some [LF] = None \/ (exists ws, Some [LF] = Some ws /\ blank ws))
    by (right; exists [LF]; split; reflexivity).
  split; [exact H|].
  exact (@blank_progress_file_is_no_checkpoint (map JStr abcd) (Some [LF]) H).
Defined.

(** X18.  When the checkpoint is the last video of the sequence, the work
    list is empty: nothing is posted, the summary says 0 of 0, and the
    progress file is removed. *)
Theorem checkpoint_on_last_video net cfg enc (video_ids : list json)
    (f : option pystr) (last : pystr) (before : list json) :
  returned (get_last_video_id f) = Ret (Some last) ->
  last <> [] ->
  video_ids = before ++ [JStr last] ->
  ~ In (JStr last) before ->
  main_from net cfg enc video_ids f =
  mkRun (Ret tt) None
    [EPrint (MsgResuming last); EPrint (MsgStarting 0);
     EPrint MsgSeparator; EPrint (MsgSummary 0 0);
     EPrint MsgDeleting; ERemove].
Proof.
  intros G NE E N.
  assert (NV : video_ids <> [])
    by (rewrite E; intros D; apply app_eq_nil in D; destruct D; discriminate).
  rewrite (@main_from_run net cfg enc video_ids f NV).
  rewrite (@resume_first video_ids f last before [] G NE E N).
  destruct f as [c|]; [reflexivity|].
  rewrite get_last_video_id_run in G; discriminate.
Qed.

(** [A; B; C; D] with ["D"] in the progress file. *)
Lemma checkpoint_on_last_video_witness :
  returned (get_last_video_id (Some (py "D"))) = Ret (Some (py "D")) /\
  py "D" <> [] /\
  map JStr abcd = map JStr [py "A"; py "B"; py "C"] ++ [JStr (py "D")] /\
  ~ In (JStr (py "D")) (map JStr [py "A"; py "B"; py "C"]) /\
  main_from net_two_pages script_config utf8 (map JStr abcd) (Some (py "D")) =
  mkRun (Ret tt) None
    [EPrint (MsgResuming (py "D")); EPrint (MsgStarting 0);
     EPrint MsgSeparator; EPrint (MsgSummary 0 0);
     EPrint MsgDeleting; ERemove].
Proof.
  assert (H1 : returned (get_last_video_id (Some (py "D")))
               = Ret (Some (py "D"))) by reflexivity.
  assert (H2 : py "D" <> []) by discriminate.
  assert (H3 : map JStr abcd
               = map JStr [py "A"; py "B"; py "C"] ++ [JStr (py "D")])
    by reflexivity.
  assert (H4 : ~ In (JStr (py "D")) (map JStr [py "A"; py "B"; py "C"]))
    by (simpl; intuition discriminate).
  split; [exact H1 | split; [exact H2 | split; [exact H3 | split;
    [exact H4 |]]]].
  exact (@checkpoint_on_last_video net_two_pages script_config utf8 (map JStr abcd)
           (Some (py "D")) (py "D") (map JStr [py "A"; py "B"; py "C"])
           H1 H2 H3 H4).
Defined.

(* ================================================================== *)
(** * Further properties of the transfer *)
(* ================================================================== *)

Lemma inserted_videos_app (t1 t2 : list event) :
  inserted_videos (t1 ++ t2) = inserted_videos t1 ++ inserted_videos t2.
Proof.
  induction t1 as [|e t1 IH]; simpl; [reflexivity|].
  destruct e as [| |v o| | | |]; try exact IH.
  destruct o; simpl; rewrite IH; reflexivity.
Qed.

Lemma inserted_videos_prints (msgs : list message) :
  inserted_videos (map EPrint msgs) = [].
Proof. induction msgs; simpl; auto. Qed.

Lemma inserted_videos_length (t : list event) :
  length (inserted_videos t) = successes t.
Proof.
  unfold successes; induction t as [|e t IH]; simpl; [reflexivity|].
  destruct e as [| |v o| | | |]; try exact IH.
  destruct o; simpl; rewrite IH; reflexivity.
Qed.

Lemma saves_app (t1 t2 : list event) : saves (t1 ++ t2) = saves t1 + saves t2.
Proof. unfold saves; rewrite filter_app, length_app; reflexivity. Qed.

Lemma sleeps_app (t1 t2 : list event) :
  sleeps (t1 ++ t2) = sleeps t1 + sleeps t2.
Proof. unfold sleeps; rewrite filter_app, length_app; reflexivity. Qed.

Lemma saves_prints (msgs : list message) : saves (map EPrint msgs) = 0.
Proof. induction msgs; simpl; auto. Qed.

Lemma sleeps_prints (msgs : list message) : sleeps (map EPrint msgs) = 0.
Proof. induction msgs; simpl; auto. Qed.

(** The turn of the loop in which the insertion does not succeed. *)
Lemma failed_turn_counts (a : message) (video_id : json) (o : post_outcome)
    (msgs : list message) :
  o <> PostOk ->
  posts (EPrint a :: EPost video_id o :: map EPrint msgs) = [video_id] /\
  inserted_videos (EPrint a :: EPost video_id o :: map EPrint msgs) = [] /\
  successes (EPrint a :: EPost video_id o :: map EPrint msgs) = 0 /\
  saves (EPrint a :: EPost video_id o :: map EPrint msgs) = 0 /\
  sleeps (EPrint a :: EPost video_id o :: map EPrint msgs) = 0.
Proof.
  intros O.
  assert (P : posts (EPrint a :: EPost video_id o :: map EPrint msgs)
              = video_id :: posts (map EPrint msgs)) by reflexivity.
  assert (I : inserted_videos (EPrint a :: EPost video_id o :: map EPrint msgs)
              = inserted_videos (map EPrint msgs))
    by (destruct o; [congruence | reflexivity | reflexivity]).
  assert (S : successes (EPrint a :: EPost video_id o :: map EPrint msgs)
              = successes (map EPrint msgs))
    by (destruct o; [congruence | reflexivity | reflexivity]).
  assert (V : saves (EPrint a :: EPost video_id o :: map EPrint msgs)
              = saves (map EPrint msgs)) by reflexivity.
  assert (L : sleeps (EPrint a :: EPost video_id o :: map EPrint msgs)
              = sleeps (map EPrint msgs)) by reflexivity.
  rewrite P, I, S, V, L, posts_prints, inserted_videos_prints,
    successes_prints, saves_prints, sleeps_prints.
  repeat split.
Qed.

Lemma finish_counts (k total : nat) (f : option pystr) :
  inserted_videos (trace (finish k total f)) = [] /\
  saves (trace (finish k total f)) = 0 /\
  sleeps (trace (finish k total f)) = 0.
Proof.
  rewrite finish_run; simpl.
  destruct (k =? total); [destruct f|]; repeat split.
Qed.

Section TransferMore.

Variable net : network.
Variable cfg : config.
Variable enc : encoding.

Lemma transfer_loop_in_order total videos :
  forall i k f,
    let t := trace (transfer_loop net cfg enc total i videos k f) in
    posts t = firstn (length (posts t)) videos /\
    inserted_videos t = firstn (successes t) videos /\
    length (posts t) <= successes t + 1.
Proof.
  induction videos as [|v rest IH]; intros i k f.
  - repeat split; simpl; lia.
  - cbv zeta.
    destruct (transfer_loop_step net cfg enc total i v rest k f)
      as [(s & -> & _ & _ & ->) | [(e' & W & _ & _ & ->) |
          [(msgs & O & _ & ->) | (msgs & e & O & _ & ->)]]];
      cbn [trace after app].
    + destruct (IH (S i) (S k) (Some s)) as (H1 & H2 & H3).
      unfold successes in *; simpl.
      repeat split; [f_equal; exact H1 | f_equal; exact H2 | lia].
    + repeat split; simpl; lia.
    + replace (map EPrint msgs ++ [EPrint MsgStopping])
        with (map EPrint (msgs ++ [MsgStopping]))
        by (rewrite map_app; reflexivity).
      destruct (failed_turn_counts (MsgAdding (i + 1) total v) v
                  (msgs ++ [MsgStopping]) O) as (-> & -> & -> & _).
      repeat split; simpl; lia.
    + destruct (failed_turn_counts (MsgAdding (i + 1) total v) v msgs O)
        as (-> & -> & -> & _).
      repeat split; simpl; lia.
Qed.

Lemma transfer_inserted videos f :
  inserted_videos (trace (transfer net cfg enc videos f)) =
  inserted_videos
    (trace (transfer_loop net cfg enc (length videos) 0 videos 0 f)).
Proof.
  rewrite transfer_run; cbv zeta.
  destruct (returned (transfer_loop net cfg enc (length videos) 0 videos 0 f))
    as [k|e]; [|reflexivity].
  cbn [after trace].
  change (EPrint (MsgStarting (length videos))
          :: trace (transfer_loop net cfg enc (length videos) 0 videos 0 f))
    with ([EPrint (MsgStarting (length videos))] ++
          trace (transfer_loop net cfg enc (length videos) 0 videos 0 f)).
  rewrite !inserted_videos_app.
  destruct (finish_counts k (length videos)
              (progress_file
                 (transfer_loop net cfg enc (length videos) 0 videos 0 f)))
    as [-> _].
  rewrite app_nil_r; reflexivity.
Qed.

(** X19.  Whatever the endpoint answers, the videos are posted in the
    order of the work list, from its start and without a gap or a
    repetition; the insertions that succeeded are the first of them, and
    at most one did not succeed, the last one: nothing is tried again and
    nothing is tried after a failure. *)
Theorem videos_are_posted_in_order (videos : list json) (f : option pystr) :
  posts (trace (transfer net cfg enc videos f))
  = firstn (length (posts (trace (transfer net cfg enc videos f)))) videos /\
  inserted_videos (trace (transfer net cfg enc videos f))
  = firstn (successes (trace (transfer net cfg enc videos f))) videos /\
  length (posts (trace (transfer net cfg enc videos f)))
  <= successes (trace (transfer net cfg enc videos f)) + 1.
Proof.
  destruct (transfer_posts net cfg enc videos f) as [-> ->].
  rewrite transfer_inserted.
  apply transfer_loop_in_order.
Qed.

Lemma transfer_loop_bookkeeping total videos :
  forall i k f k',
    returned (transfer_loop net cfg enc total i videos k f) = Ret k' ->
    saves (trace (transfer_loop net cfg enc total i videos k f))
    = successes (trace (transfer_loop net cfg enc total i videos k f)) /\
    sleeps (trace (transfer_loop net cfg enc total i videos k f))
    = successes (trace (transfer_loop net cfg enc total i videos k f)).
Proof.
  induction videos as [|v rest IH]; intros i k f k'.
  - intros _; split; reflexivity.
  - destruct (transfer_loop_step net cfg enc total i v rest k f)
      as [(s & -> & _ & _ & ->) | [(e' & W & _ & _ & ->) |
          [(msgs & O & _ & ->) | (msgs & e & O & _ & ->)]]];
      cbn [trace after app returned]; try discriminate.
    + intros R; destruct (IH _ _ _ _ R) as [H1 H2].
      unfold saves, sleeps, successes in *; simpl; split; lia.
    + intros _.
      replace (map EPrint msgs ++ [EPrint MsgStopping])
        with (map EPrint (msgs ++ [MsgStopping]))
        by (rewrite map_app; reflexivity).
      destruct (failed_turn_counts (MsgAdding (i + 1) total v) v
                  (msgs ++ [MsgStopping]) O) as (_ & _ & -> & -> & ->).
      split; reflexivity.
Qed.

(** X20.  A transfer that comes to its end prints the summary with the
    number of insertions that succeeded and the length of the work list;
    the progress file was written once and the run paused once for each
    of these insertions, and for nothing else. *)
Theorem summary_counts_successes (videos : list json) (f : option pystr) :
  returned (transfer net cfg enc videos f) = Ret tt ->
  In (EPrint (MsgSummary (successes (trace (transfer net cfg enc videos f)))
                (length videos)))
     (trace (transfer net cfg enc videos f)) /\
  successes (trace (transfer net cfg enc videos f)) <= length videos /\
  saves (trace (transfer net cfg enc videos f))
  = successes (trace (transfer net cfg enc videos f)) /\
  sleeps (trace (transfer net cfg enc videos f))
  = successes (trace (transfer net cfg enc videos f)).
Proof.
  destruct (transfer_posts net cfg enc videos f) as [_ ->].
  rewrite transfer_run; cbv zeta.
  pose proof (@transfer_loop_count net cfg enc (length videos) videos 0 0 f) as C.
  pose proof (@transfer_loop_bookkeeping (length videos) videos 0 0 f) as B.
  destruct (returned (transfer_loop net cfg enc (length videos) 0 videos 0 f))
    as [k|e]; [|discriminate].
  intros _; destruct (C k eq_refl) as (C1 & C2 & _).
  destruct (B k eq_refl) as (B1 & B2).
  simpl in C1; subst k.
  cbn [after trace].
  change (EPrint (MsgStarting (length videos))
          :: trace (transfer_loop net cfg enc (length videos) 0 videos 0 f))
    with ([EPrint (MsgStarting (length videos))] ++
          trace (transfer_loop net cfg enc (length videos) 0 videos 0 f)).
  rewrite !saves_app, !sleeps_app.
  destruct (finish_counts
              (successes
                 (trace (transfer_loop net cfg enc (length videos) 0 videos 0 f)))
              (length videos)
              (progress_file
                 (transfer_loop net cfg enc (length videos) 0 videos 0 f)))
    as (_ & -> & ->).
  rewrite B1, B2; repeat split; try (simpl; lia).
  apply in_or_app; right; rewrite finish_run; simpl; auto.
Qed.

Lemma transfer_loop_non_string total videos :
  forall i k f v,
    In (EPost v PostOk) (trace (transfer_loop net cfg enc total i videos k f)) ->
    (forall s, v <> JStr s) ->
    returned (transfer_loop net cfg enc total i videos k f) = Exc TypeError /\
    progress_file (transfer_loop net cfg enc total i videos k f) = Some [].
Proof.
  induction videos as [|v0 rest IH]; intros i k f v; [intros []|].
  destruct (transfer_loop_step net cfg enc total i v0 rest k f)
    as [(s & -> & _ & _ & ->) | [(e' & W & _ & _ & ->) |
        [(msgs & O & _ & ->) | (msgs & e & O & _ & ->)]]];
    cbn [trace after app returned progress_file].
  - intros [D | [D | [D | [D | Hin]]]] N; try discriminate.
    + injection D as <-; exfalso; eapply N; reflexivity.
    + apply (IH _ _ _ _ Hin N).
  - intros [D | [D | [D | []]]] N; try discriminate.
    injection D as <-.
    destruct v0; simpl in W; try (injection W as <-; split; reflexivity).
    exfalso; eapply N; reflexivity.
  - intros [D | [D | Hin]] _; try discriminate.
    + injection D as D1 D2; exfalso; apply O; exact D2.
    + apply in_app_or in Hin; destruct Hin as [Hin | [D | []]];
        [|discriminate].
      apply in_prints in Hin; destruct Hin; discriminate.
  - intros [D | [D | Hin]] _; try discriminate.
    + injection D as D1 D2; exfalso; apply O; exact D2.
    + apply in_prints in Hin; destruct Hin; discriminate.
Qed.

(** X21.  When a video id that is not a string has been inserted (the
    Lister keeps any true value), writing it to the progress file raises
    [TypeError] after the file has been emptied: the run stops there, and
    the progress file, now empty, has lost the checkpoint of the videos
    inserted before. *)
Theorem non_string_video_id_empties_progress_file (videos : list json)
    (f : option pystr) (v : json) :
  In (EPost v PostOk) (trace (transfer net cfg enc videos f)) ->
  (forall s, v <> JStr s) ->
  returned (transfer net cfg enc videos f) = Exc TypeError /\
  progress_file (transfer net cfg enc videos f) = Some [] /\
  resume videos (progress_file (transfer net cfg enc videos f))
  = mkRun (Ret videos) (Some []) [].
Proof.
  intros Hin N.
  assert (L : In (EPost v PostOk)
                (trace (transfer_loop net cfg enc (length videos) 0 videos 0 f))).
  { revert Hin; rewrite transfer_run; cbv zeta.
    destruct (returned (transfer_loop net cfg enc (length videos) 0 videos 0 f))
      as [k|e]; cbn [after trace].
    - intros [D | Hin]; [discriminate|].
      apply in_app_or in Hin; destruct Hin as [Hin | Hin]; [exact Hin|].
      rewrite finish_run in Hin; simpl in Hin.
      destruct Hin as [D | [D | Hin]]; try discriminate.
      destruct (k =? length videos); [|destruct Hin].
      destruct Hin as [D | Hin]; [discriminate|].
      destruct (progress_file _); simpl in Hin; intuition discriminate.
    - intros [D | Hin]; [discriminate | exact Hin]. }
  destruct (@transfer_loop_non_string (length videos) videos 0 0 f v L N)
    as [R P].
  rewrite transfer_run; cbv zeta; rewrite R; cbn [returned progress_file].
  rewrite P; repeat split.
Qed.

End TransferMore.

(** The run in which the insertion of [C] fails. *)
Lemma summary_counts_successes_witness :
  returned (transfer net_third_fails script_config utf8 (map JStr abcd) None)
  = Ret tt /\
  In (EPrint (MsgSummary
                (successes (trace (transfer net_third_fails script_config utf8
                                     (map JStr abcd) None)))
                (length (map JStr abcd))))
     (trace (transfer net_third_fails script_config utf8 (map JStr abcd) None)) /\
  successes (trace (transfer net_third_fails script_config utf8 (map JStr abcd)
                      None)) <= length (map JStr abcd) /\
  saves (trace (transfer net_third_fails script_config utf8 (map JStr abcd) None))
  = successes (trace (transfer net_third_fails script_config utf8 (map JStr abcd)
                        None)) /\
  sleeps (trace (transfer net_third_fails script_config utf8 (map JStr abcd) None))
  = successes (trace (transfer net_third_fails script_config utf8 (map JStr abcd)
                        None)).
Proof.
  assert (H : returned (transfer net_third_fails script_config utf8
                          (map JStr abcd) None) = Ret tt) by reflexivity.
  split; [exact H|].
  exact (@summary_counts_successes net_third_fails script_config utf8
           (map JStr abcd) None H).
Defined.

(** A playlist whose second entry has the number 7 for video id. *)
Lemma non_string_video_id_empties_progress_file_witness :
  In (EPost (JNum 7) PostOk)
     (trace (transfer net_two_pages script_config utf8
               [JStr (py "A"); JNum 7; JStr (py "B")] None)) /\
  (forall s, JNum 7 <> JStr s) /\
  returned (transfer net_two_pages script_config utf8
              [JStr (py "A"); JNum 7; JStr (py "B")] None) = Exc TypeError /\
  progress_file (transfer net_two_pages script_config utf8
                   [JStr (py "A"); JNum 7; JStr (py "B")] None) = Some [] /\
  resume [JStr (py "A"); JNum 7; JStr (py "B")]
    (progress_file (transfer net_two_pages script_config utf8
                      [JStr (py "A"); JNum 7; JStr (py "B")] None))
  = mkRun (Ret [JStr (py "A"); JNum 7; JStr (py "B")]) (Some []) [].
Proof.
  assert (H1 : In (EPost (JNum 7) PostOk)
     (trace (transfer net_two_pages script_config utf8
               [JStr (py "A"); JNum 7; JStr (py "B")] None)))
    by (vm_compute; do 6 right; left; reflexivity).
  assert (H2 : forall s, JNum 7 <> JStr s) by discriminate.
  split; [exact H1 | split; [exact H2 |]].
  exact (@non_string_video_id_empties_progress_file net_two_pages
           script_config utf8 [JStr (py "A"); JNum 7; JStr (py "B")] None
           (JNum 7) H1 H2).
Defined.

(* ================================================================== *)
(** * Further properties of the orchestrator *)
(* ================================================================== *)

#[local] Arguments transfer : simpl never.


(** The transfer of identifiers that can be written, on an endpoint that
    accepts every insertion. *)
Lemma transfer_all_accepted net cfg enc (ids : list pystr) (f : option pystr) :
  Forall (fun s => encodes enc s = true) ids ->
  (forall n v, net_post net n (DESTINATION_PLAYLIST_ID cfg)
                 (ACCESS_TOKEN cfg) v = PostOk) ->
  returned (transfer net cfg enc (map JStr ids) f) = Ret tt /\
  progress_file (transfer net cfg enc (map JStr ids) f) = None /\
  posts (trace (transfer net cfg enc (map JStr ids) f)) = map JStr ids /\
  inserted_videos (trace (transfer net cfg enc (map JStr ids) f)) = map JStr ids /\
  In (EPrint (MsgSummary (length ids) (length ids)))
     (trace (transfer net cfg enc (map JStr ids) f)).
Proof.
  intros En OK.
  assert (I : forall j s, nth_error ids j = Some s ->
                inserted net cfg (0 + j) (JStr s) = Ret true).
  { intros j s _; apply add_video_true, OK. }
  destruct (@transfer_loop_all_ok net cfg enc (length (map JStr ids)) ids
              0 0 f En I) as [R P].
  destruct (@transfer_loop_count net cfg enc (length (map JStr ids))
              (map JStr ids) 0 0 f _ R) as (C1 & _ & C3).
  destruct (@transfer_loop_in_order net cfg enc (length (map JStr ids))
              (map JStr ids) 0 0 f) as (_ & O2 & _).
  destruct (transfer_posts net cfg enc (map JStr ids) f) as [-> _].
  simpl in C1; rewrite transfer_inserted, O2, <- C1.
  rewrite C3 by (rewrite length_map; reflexivity).
  rewrite transfer_run; cbv zeta; rewrite R, finish_run.
  rewrite length_map, Nat.add_0_l, Nat.eqb_refl.
  cbn [after returned progress_file trace].
  repeat split.
  - rewrite <- (length_map JStr ids); apply firstn_all.
  - apply in_or_app; right; simpl; auto.
Qed.



(** X23.  When one of the four values of the configuration is the empty
    string, [main] prints the request to fill them in and returns: no
    request is sent and the progress file is neither read nor changed.
    When none is empty, the run starts with the first listing request,
    sent without token. *)
Theorem main_checks_configuration net cfg enc fuel f :
  (API_KEY cfg = [] \/ SOURCE_PLAYLIST_ID cfg = [] \/
   DESTINATION_PLAYLIST_ID cfg = [] \/ ACCESS_TOKEN cfg = [] ->
   main net cfg enc fuel f = Done (mkRun (Ret tt) f [EPrint MsgFillIn])) /\
  (API_KEY cfg <> [] -> SOURCE_PLAYLIST_ID cfg <> [] ->
   DESTINATION_PLAYLIST_ID cfg <> [] -> ACCESS_TOKEN cfg <> [] ->
   exists rest,
     so_far (main net cfg enc (S fuel) f) =
     EPrint MsgFetching
     :: EGet JNull (net_get net 0 (SOURCE_PLAYLIST_ID cfg) (API_KEY cfg) JNull)
     :: rest).
Proof.
  unfold main, all_set; split.
  - destruct (API_KEY cfg), (SOURCE_PLAYLIST_ID cfg),
      (DESTINATION_PLAYLIST_ID cfg), (ACCESS_TOKEN cfg);
      intros [H | [H | [H | H]]]; try discriminate; reflexivity.
  - intros H1 H2 H3 H4.
    destruct (API_KEY cfg) as [|c1 k] eqn:E1; [congruence|].
    destruct (SOURCE_PLAYLIST_ID cfg) as [|c2 s] eqn:E2; [congruence|].
    destruct (DESTINATION_PLAYLIST_ID cfg) as [|c3 d]; [congruence|].
    destruct (ACCESS_TOKEN cfg) as [|c4 a]; [congruence|].
    cbn [forallb truthy andb].
    assert (G : exists rest,
              so_far (get_all_videos_from_playlist net (S fuel) (c2 :: s)
                        (c1 :: k) f) =
              EPrint MsgFetching
              :: EGet JNull (net_get net 0 (c2 :: s) (c1 :: k) JNull) :: rest).
    { unfold get_all_videos_from_playlist; rewrite so_far_after.
      cbn [lister_loop]; rewrite so_far_after.
      eexists; reflexivity. }
    destruct G as (rest & G).
    destruct (get_all_videos_from_playlist net (S fuel) (c2 :: s) (c1 :: k) f)
      as [r|t]; simpl in G.
    + destruct (returned r); simpl; rewrite G; eexists; reflexivity.
    + exists rest; exact G.
Qed.

(** The access token has been left empty. *)
Lemma main_checks_configuration_witness :
  (API_KEY config_without_token = [] \/
   SOURCE_PLAYLIST_ID config_without_token = [] \/
   DESTINATION_PLAYLIST_ID config_without_token = [] \/
   ACCESS_TOKEN config_without_token = []) /\
  main net_two_pages config_without_token utf8 2 (Some (py "B"))
  = Done (mkRun (Ret tt) (Some (py "B")) [EPrint MsgFillIn]).
Proof.
  assert (H : API_KEY config_without_token = [] \/
   SOURCE_PLAYLIST_ID config_without_token = [] \/
   DESTINATION_PLAYLIST_ID config_without_token = [] \/
   ACCESS_TOKEN config_without_token = [])
    by (right; right; right; reflexivity).
  split; [exact H|].
  exact (proj1 (@main_checks_configuration net_two_pages config_without_token utf8
                  2 (Some (py "B"))) H).
Defined.

(** X24.  What a run posts is a stretch of what its Lister returned: the
    videos that [main] inserts are videos of the source playlist, in the
    order of the playlist, without a gap. *)
Theorem main_posts_listed_videos net cfg enc fuel f l video_ids r :
  get_all_videos_from_playlist net fuel (SOURCE_PLAYLIST_ID cfg)
    (API_KEY cfg) f = Done l ->
  returned l = Ret video_ids ->
  main net cfg enc fuel f = Done r ->
  exists before rest, video_ids = before ++ posts (trace r) ++ rest.
Proof.
  intros L R; unfold main.
  destruct (all_set cfg).
  - rewrite L, R; intros [= <-]; cbn [after trace].
    rewrite posts_app.
    pose proof (lister_posts net fuel (SOURCE_PLAYLIST_ID cfg) (API_KEY cfg) f)
      as P; rewrite L in P; simpl in P; rewrite P; simpl app.
    destruct video_ids as [|v video_ids];
      [exists [], []; reflexivity|].
    rewrite (@main_from_run net cfg enc (v :: video_ids) (progress_file l))
      by discriminate.
    destruct (resume_suffix (v :: video_ids) (progress_file l))
      as (skipped & work & Rw & E & _ & Pw & _).
    rewrite Rw, trace_after, posts_app, Pw, app_nil_l.
    destruct (transfer_posts net cfg enc work (progress_file (resume (v :: video_ids) (progress_file l))))
      as [-> _].
    destruct (@transfer_loop_in_order net cfg enc (length work) work 0 0
                (progress_file (resume (v :: video_ids) (progress_file l))))
      as (O1 & _).
    exists skipped; eexists.
    rewrite O1 at 1; rewrite firstn_skipn; exact E.
  - intros [= <-]; exists [], video_ids; reflexivity.
Qed.

(** The run that resumes after [B] posts [C] and [D]. *)
Lemma main_posts_listed_videos_witness :
  exists l r,
    get_all_videos_from_playlist net_two_pages 2
      (SOURCE_PLAYLIST_ID script_config) (API_KEY script_config)
      (Some (py "B")) = Done l /\
    returned l = Ret (map JStr abcd) /\
    main net_two_pages script_config utf8 2 (Some (py "B")) = Done r /\
    exists before rest, map JStr abcd = before ++ posts (trace r) ++ rest.
Proof.
  do 2 eexists; split; [reflexivity|]; split; [reflexivity|];
    split; [reflexivity|].
  exact (@main_posts_listed_videos net_two_pages script_config utf8 2
           (Some (py "B")) _ (map JStr abcd) _ eq_refl eq_refl eq_refl).
Defined.

Lemma gets_app (u w : list event) : gets (u ++ w) = gets u ++ gets w.
Proof.
  induction u as [|e u IH]; [reflexivity|].
  destruct e; simpl; rewrite ?IH; reflexivity.
Qed.

Lemma gets_prints (msgs : list message) : gets (map EPrint msgs) = [].
Proof. induction msgs; simpl; auto. Qed.

Lemma gets_count (u : list event) :
  length (gets u)
  = length (filter (fun e => match e with EGet _ _ => true | _ => false end)
              u).
Proof. induction u as [|e u IH]; [reflexivity|]; destruct e; simpl; auto. Qed.

(** The transfer sends no listing request. *)
Lemma transfer_loop_gets net cfg enc total videos :
  forall i k g, gets (trace (transfer_loop net cfg enc total i videos k g)) = [].
Proof.
  induction videos as [|v rest IH]; intros i k g; [reflexivity|].
  destruct (transfer_loop_step net cfg enc total i v rest k g)
    as [(s & -> & _ & _ & ->) | [(e' & W & _ & _ & ->) |
        [(msgs & _ & _ & ->) | (msgs & e & _ & _ & ->)]]];
    cbn [trace after app gets];
    [apply IH | reflexivity | | apply gets_prints].
  change [EPrint MsgStopping] with (map EPrint [MsgStopping]).
  rewrite <- map_app; apply gets_prints.
Qed.

Lemma transfer_gets net cfg enc videos f :
  gets (trace (transfer net cfg enc videos f)) = [].
Proof.
  rewrite transfer_run; cbv zeta.
  pose proof (@transfer_loop_gets net cfg enc (length videos) videos 0 0 f) as G.
  destruct (returned (transfer_loop net cfg enc (length videos) 0 videos 0 f))
    as [k|e]; [|exact G].
  rewrite trace_after, finish_run.
  change (EPrint (MsgStarting (length videos))
          :: trace (transfer_loop net cfg enc (length videos) 0 videos 0 f))
    with ([EPrint (MsgStarting (length videos))] ++
          trace (transfer_loop net cfg enc (length videos) 0 videos 0 f)).
  rewrite !gets_app, G; simpl.
  destruct (k =? length videos); [|reflexivity].
  destruct (progress_file _); reflexivity.
Qed.

(** X25.  A first run from end to end: no progress file, an endpoint that
    serves a finite chain of pages whose video ids are strings that the
    encoding of the progress file can encode, and every insertion
    accepted.  [main] returns after one listing request for each
    page, has posted the video ids of the pages in page order, each once,
    says so in its summary, and leaves no progress file. *)
Theorem first_run_transfers_everything net cfg enc (pages : list json)
    (idss : list (list json)) (ids : list pystr) (extra : nat) :
  all_set cfg = true ->
  serves net (SOURCE_PLAYLIST_ID cfg) (API_KEY cfg) 0 JNull pages ->
  Forall2 (fun data vs => resolvable data = Ret vs) pages idss ->
  concat idss = map JStr ids ->
  ids <> [] ->
  Forall (fun s => encodes enc s = true) ids ->
  (forall n v, net_post net n (DESTINATION_PLAYLIST_ID cfg)
                 (ACCESS_TOKEN cfg) v = PostOk) ->
  exists r,
    main net cfg enc (length pages + extra) None = Done r /\
    returned r = Ret tt /\
    length (gets (trace r)) = length pages /\
    posts (trace r) = map JStr ids /\
    In (EPrint (MsgSummary (length ids) (length ids))) (trace r) /\
    progress_file r = None.
Proof.
  intros A S F E NE En OK.
  destruct (@lister_loop_serves net (SOURCE_PLAYLIST_ID cfg) (API_KEY cfg)
              0 JNull pages S idss [] extra None F) as (t & L & Len).
  unfold main; rewrite A; unfold get_all_videos_from_playlist; rewrite L.
  cbn [after_fueled after returned progress_file trace app].
  rewrite E.
  assert (NV : map JStr ids <> []) by (destruct ids; [congruence|discriminate]).
  rewrite (@main_from_run net cfg enc (map JStr ids) None NV).
  rewrite (@resume_absent (map JStr ids) None (or_introl eq_refl)).
  cbn [returned progress_file trace]; rewrite after_nil.
  destruct (@transfer_all_accepted net cfg enc ids None En OK)
    as (T1 & T2 & T3 & T4 & T5).
  eexists; split; [reflexivity|]; cbn [after returned progress_file trace].
  assert (Pa : posts (EPrint MsgFetching :: t) = []).
  { pose proof (lister_posts net (length pages + extra)
                  (SOURCE_PLAYLIST_ID cfg) (API_KEY cfg) None) as P.
    unfold get_all_videos_from_playlist in P; rewrite L in P; exact P. }
  change (EPrint MsgFetching :: t ++
          trace (transfer net cfg enc (map JStr ids) None))
    with ((EPrint MsgFetching :: t) ++
          trace (transfer net cfg enc (map JStr ids) None)).
  rewrite gets_app, transfer_gets, app_nil_r, posts_app, Pa, T3.
  repeat split; try assumption.
  - rewrite gets_count; exact Len.
  - apply in_or_app; right; exact T5.
Qed.

(** The two pages of [net_two_pages], all four insertions accepted. *)
Lemma first_run_transfers_everything_witness :
  all_set script_config = true /\
  serves net_two_pages (SOURCE_PLAYLIST_ID script_config)
    (API_KEY script_config) 0 JNull two_pages /\
  Forall2 (fun data vs => resolvable data = Ret vs) two_pages
    [[JStr (py "A"); JStr (py "B")]; [JStr (py "C"); JStr (py "D")]] /\
  concat [[JStr (py "A"); JStr (py "B")]; [JStr (py "C"); JStr (py "D")]]
  = map JStr abcd /\
  abcd <> [] /\
  Forall (fun s => encodes utf8 s = true) abcd /\
  (forall n v, net_post net_two_pages n
                 (DESTINATION_PLAYLIST_ID script_config)
                 (ACCESS_TOKEN script_config) v = PostOk) /\
  exists r,
    main net_two_pages script_config utf8 (length two_pages + 0) None = Done r /\
    returned r = Ret tt /\
    length (gets (trace r)) = length two_pages /\
    posts (trace r) = map JStr abcd /\
    In (EPrint (MsgSummary (length abcd) (length abcd))) (trace r) /\
    progress_file r = None.
Proof.
  assert (H1 : all_set script_config = true) by reflexivity.
  assert (H2 : serves net_two_pages (SOURCE_PLAYLIST_ID script_config)
                 (API_KEY script_config) 0 JNull two_pages).
  { eapply serves_more with (next := JStr (py "T"));
      [reflexivity | reflexivity | reflexivity |].
    eapply serves_last with (next := JNull); reflexivity. }
  assert (H3 : Forall2 (fun data vs => resolvable data = Ret vs) two_pages
    [[JStr (py "A"); JStr (py "B")]; [JStr (py "C"); JStr (py "D")]])
    by (repeat constructor).
  assert (H4 : concat [[JStr (py "A"); JStr (py "B")];
                       [JStr (py "C"); JStr (py "D")]] = map JStr abcd)
    by reflexivity.
  assert (H5 : abcd <> []) by discriminate.
  assert (H0 : Forall (fun s => encodes utf8 s = true) abcd)
    by (repeat constructor).
  assert (H6 : forall n v, net_post net_two_pages n
                 (DESTINATION_PLAYLIST_ID script_config)
                 (ACCESS_TOKEN script_config) v = PostOk)
    by (intros; reflexivity).
  split; [exact H1 | split; [exact H2 | split; [exact H3 | split;
    [exact H4 | split; [exact H5 | split; [exact H0 | split;
    [exact H6 |]]]]]]].
  exact (@first_run_transfers_everything net_two_pages script_config utf8
           two_pages
           [[JStr (py "A"); JStr (py "B")]; [JStr (py "C"); JStr (py "D")]]
           abcd 0 H1 H2 H3 H4 H5 H0 H6).
Defined.
